(** * E-commerce dashboard (app.py): loader, country filter, the tables
      of the five tabs, top-n ranking and the RFM scoring pipeline,
      embedded shallowly.

    The script is a pandas program.  Tables are lists of rows in row
    order, columns are record fields, and a column that an assignment may
    or may not have created is an [option].  Exceptions are values of
    [exn] carried by the [result] monad.  Numbers are exact: integer
    columns are [Z], float columns are rationals [Q] (rounding of IEEE
    doubles is not represented), timestamps are [Z] nanoseconds since the
    epoch and are taken inside the representable range of a Timestamp. *)

From Stdlib Require Import String Ascii.
From Stdlib Require Import List ZArith QArith Qround Bool Lia.
From Stdlib Require Import Permutation Sorted DecimalString.
From Stdlib Require OrderedTypeEx.
From Stdlib Require Import Lqa.
Import ListNotations.

Local Open Scope string_scope.
Local Open Scope list_scope.
Local Open Scope Z_scope.

(** ** Exceptions and the error monad *)

Inductive exn : Type :=
| ValueError (msg : string)
| KeyError (column : string).

Inductive result (A : Type) : Type :=
| Ok (a : A)
| Raise (e : exn).
Arguments Ok {A} a.
Arguments Raise {A} e.

Definition bind {A B : Type} (m : result A) (k : A -> result B) : result B :=
  match m with
  | Ok a => k a
  | Raise e => Raise e
  end.

Notation "x <- m ;; k" := (bind m (fun x => k))
  (at level 61, m at next level, right associativity).

(** ** Data model *)

(** A line of data/data.csv after [read_csv] and [to_datetime]. *)
Record CsvRow : Type := mkCsvRow {
  csv_InvoiceNo : string;
  csv_StockCode : string;
  csv_Description : string;
  csv_Quantity : Z;
  csv_InvoiceDate : Z;
  csv_UnitPrice : Q;
  csv_CustomerID : option Z;
  csv_Country : string
}.

(** A row of the working table: the CSV columns plus [TotalSales]. *)
Record Transaction : Type := mkTransaction {
  InvoiceNo : string;
  StockCode : string;
  Description : string;
  Quantity : Z;
  InvoiceDate : Z;
  UnitPrice : Q;
  CustomerID : option Z;
  Country : string;
  TotalSales : Q
}.

Definition DataFrame : Type := list Transaction.

(** ** load_and_clean_data (app.py 9-13) *)

(** [data['TotalSales'] = data['Quantity'] * data['UnitPrice']] *)
Definition assign_TotalSales (r : CsvRow) : Transaction :=
  {| InvoiceNo := csv_InvoiceNo r;
     StockCode := csv_StockCode r;
     Description := csv_Description r;
     Quantity := csv_Quantity r;
     InvoiceDate := csv_InvoiceDate r;
     UnitPrice := csv_UnitPrice r;
     CustomerID := csv_CustomerID r;
     Country := csv_Country r;
     TotalSales := (inject_Z (csv_Quantity r) * csv_UnitPrice r)%Q |}.

(** [return data[data['Quantity'] > 0]] *)
Definition load_and_clean_data (csv : list CsvRow) : DataFrame :=
  filter (fun r => Z.ltb 0 (Quantity r)) (map assign_TotalSales csv).

(** ** Country filter (app.py 21-22) *)

(** [["All"] + data['Country'].unique().tolist()] *)
Fixpoint unique_strings (seen l : list string) : list string :=
  match l with
  | [] => []
  | s :: l' =>
      if existsb (String.eqb s) seen then unique_strings seen l'
      else s :: unique_strings (s :: seen) l'
  end.

Definition selectbox_options (data : DataFrame) : list string :=
  "All" :: unique_strings [] (map Country data).

(** [data if selected_country == "All" else data[data['Country'] == selected_country]] *)
Definition filtered_data (data : DataFrame) (selected_country : string) : DataFrame :=
  if String.eqb selected_country "All" then data
  else filter (fun r => String.eqb (Country r) selected_country) data.

(** The same statement with object identity: frames live in a heap and
    variables hold references.  With "All" the name [filtered_data] is
    bound to the very object [data]; boolean indexing allocates a new
    frame. *)
Definition Heap : Type := list DataFrame.

Definition deref (h : Heap) (ref : nat) : DataFrame := nth ref h [].

Definition filter_stage (h : Heap) (data : nat) (selected_country : string)
  : Heap * nat :=
  if String.eqb selected_country "All" then (h, data)
  else (h ++ [filter (fun r => String.eqb (Country r) selected_country)
                     (deref h data)],
        length h).

(** Row-by-row description of a country restriction, used as the
    specification of the filter. *)
Inductive Restricted (c : string) : DataFrame -> DataFrame -> Prop :=
| Restricted_nil : Restricted c [] []
| Restricted_keep r t t' :
    Country r = c -> Restricted c t t' -> Restricted c (r :: t) (r :: t')
| Restricted_drop r t t' :
    Country r <> c -> Restricted c t t' -> Restricted c (r :: t) t'.

(** ** numpy / pandas primitives used by the RFM tab

    [pandas.qcut] is library code; the definitions below follow its
    documented algorithm step by step: quantile edges by linear
    interpolation on the sorted values, removal or rejection of duplicate
    edges, a left binary search of each value among the edges, the
    [include_lowest] correction, and the label lookup. *)

(** [duplicates="raise"] (the default) or [duplicates="drop"]. *)
Inductive duplicates_kw : Type := dup_raise | dup_drop.

(** The column in ascending order (insertion sort). *)
Fixpoint insert_sorted (v : Q) (l : list Q) : list Q :=
  match l with
  | [] => [v]
  | w :: l' => if Qle_bool v w then v :: l else w :: insert_sorted v l'
  end.

Definition np_sort (x : list Q) : list Q := fold_right insert_sorted [] x.

(** The [i]-th of the [k+1] quantiles [linspace(0, 1, k+1)] of a sorted
    column of [n] values: virtual index [h = (n-1) * i / k], split into
    its integer part [j] and fractional part [g / k]; the value is
    [sorted[j] + (g/k) * (sorted[j+1] - sorted[j])].  On an empty column
    every quantile is NaN; here the [k+1] edges of an empty column are
    equal placeholders, which is all that [unique] observes of them.
    The interpolation is exact.  numpy rounds the virtual index and the
    interpolated value to doubles, which can separate in the last bit two
    inner edges that are equal here; the first and the last edge, and the
    edges inside a run of equal values, are the same in both. *)
Definition quantile (sorted : list Q) (i k : nat) : Q :=
  let n := length sorted in
  let h := Z.of_nat (n - 1) * Z.of_nat i in
  let j := Z.to_nat (h / Z.of_nat k) in
  let g := h mod Z.of_nat k in
  let lo := nth j sorted 0%Q in
  let hi := nth (Nat.min (j + 1) (n - 1)) sorted 0%Q in
  (lo + (g # Pos.of_nat k) * (hi - lo))%Q.

Definition quantile_edges (x : list Q) (k : nat) : list Q :=
  let sorted := np_sort x in
  map (fun i => quantile sorted i k) (seq 0 (k + 1)).

(** [algos.unique]: first occurrences, in order. *)
Fixpoint pd_unique (bins : list Q) : list Q :=
  match bins with
  | [] => []
  | b :: bins' => b :: filter (fun c => negb (Qeq_bool b c)) (pd_unique bins')
  end.

(** [bins.searchsorted(v, side="left")] on the ascending edges: the
    number of leading edges that are strictly below [v]. *)
Fixpoint searchsorted_left (bins : list Q) (v : Q) : nat :=
  match bins with
  | [] => 0
  | b :: bins' => if Qle_bool v b then 0%nat else S (searchsorted_left bins' v)
  end.

(** The bin index of one value: [ids[x == bins[0]] = 1] for
    [include_lowest], then 0 (masked) when the index is 0 or
    [len(bins)]. *)
Definition bin_id (bins : list Q) (v : Q) : nat :=
  let ids := searchsorted_left bins v in
  let ids := if Qeq_bool v (nth 0 bins 0%Q) then 1%nat else ids in
  if (Nat.eqb ids (length bins) || Nat.eqb ids 0)%bool then 0%nat else ids.

(** [take_nd(labels, ids - 1)]: NaN for a masked index. *)
Definition take_label (labels : list Z) (id : nat) : option Z :=
  match id with
  | O => None
  | S i => nth_error labels i
  end.

Fixpoint all_distinct (labels : list Z) : bool :=
  match labels with
  | [] => true
  | a :: labels' => (negb (existsb (Z.eqb a) labels') && all_distinct labels')%bool
  end.

Definition bins_to_cuts (x bins : list Q) (labels : list Z)
    (duplicates : duplicates_kw) : result (list (option Z)) :=
  let unique_bins := pd_unique bins in
  bins <- (if (Nat.ltb (length unique_bins) (length bins)
               && negb (Nat.eqb (length bins) 2))%bool
           then match duplicates with
                | dup_raise => Raise (ValueError "Bin edges must be unique")
                | dup_drop => Ok unique_bins
                end
           else Ok bins) ;;
  if negb (all_distinct labels)
  then Raise (ValueError "labels must be unique if ordered=True")
  else if negb (Nat.eqb (length labels) (length bins - 1))
  then Raise (ValueError
                "Bin labels must be one fewer than the number of bin edges")
  else Ok (map (fun v => take_label labels (bin_id bins v)) x).

Definition qcut (x : list Q) (q : nat) (labels : list Z)
    (duplicates : duplicates_kw) : result (list (option Z)) :=
  bins_to_cuts x (quantile_edges x q) labels duplicates.

(** [range(1, bins + 1)] *)
Definition range_labels (bins : nat) : list Z := map Z.of_nat (seq 1 bins).

(** [range(start, stop, -1)] *)
Fixpoint range_down (start stop : nat) : list nat :=
  match start with
  | O => []
  | S s => if Nat.ltb stop start then start :: range_down s stop else []
  end.

(** ** RFM metrics (app.py 116-124) *)

Definition ns_per_day : Z := 86400000000000.

(** [pd.Timedelta(days=d)] in nanoseconds *)
Definition Timedelta_days (d : Z) : Z := d * ns_per_day.

(** [Timedelta.days]: whole days, rounded towards minus infinity *)
Definition days (td : Z) : Z := td / ns_per_day.

(** [Series.max()]: NaT ([None]) on an empty column *)
Definition series_max (l : list Z) : option Z :=
  match l with
  | [] => None
  | d :: l' => Some (fold_left Z.max l' d)
  end.

(** [m] is the latest of the timestamps [l]. *)
Definition is_latest (m : Z) (l : list Z) : Prop :=
  In m l /\ forall d, In d l -> d <= m.

(** [filtered_data['InvoiceDate'].max() + pd.Timedelta(days=1)];
    NaT plus a day is NaT. *)
Definition reference_date (filtered_data : DataFrame) : option Z :=
  option_map (fun m => m + Timedelta_days 1)
             (series_max (map InvoiceDate filtered_data)).

(** Group keys of [groupby('CustomerID')]: the distinct customer ids in
    ascending order; rows without a customer id belong to no group. *)
Fixpoint insert_key (c : Z) (keys : list Z) : list Z :=
  match keys with
  | [] => [c]
  | k :: keys' =>
      if Z.ltb c k then c :: keys
      else if Z.eqb c k then keys
      else k :: insert_key c keys'
  end.

Definition group_keys (table : DataFrame) : list Z :=
  fold_right (fun r keys => match CustomerID r with
                            | Some c => insert_key c keys
                            | None => keys
                            end) [] table.

Definition has_customer (c : Z) (r : Transaction) : bool :=
  match CustomerID r with
  | Some c' => Z.eqb c' c
  | None => false
  end.

Definition group_rows (table : DataFrame) (c : Z) : DataFrame :=
  filter (has_customer c) table.

(** ['nunique'] *)
Definition nunique (l : list string) : Z :=
  Z.of_nat (length (unique_strings [] l)).

(** ['sum'], in exact arithmetic: the order and the grouping of the
    additions, on which a sum of doubles depends, are not represented. *)
Definition series_sum (l : list Q) : Q := fold_left Qplus l 0%Q.

(** One row of [rfm] after line 124. *)
Record Metrics : Type := mkMetrics {
  m_CustomerID : Z;
  Recency : Z;
  Frequency : Z;
  Monetary : Q
}.

(** The three aggregations of one group, whose first row is [r]. *)
Definition agg (reference_date : Z) (c : Z) (r : Transaction)
    (rs : list Transaction) : Metrics :=
  {| m_CustomerID := c;
     Recency := days (reference_date
                      - fold_left Z.max (map InvoiceDate rs) (InvoiceDate r));
     Frequency := nunique (map InvoiceNo (r :: rs));
     Monetary := series_sum (map TotalSales (r :: rs)) |}.

(** [filtered_data.groupby('CustomerID').agg({...}).reset_index()].
    An empty table has no groups, so the lambda is never applied to the
    NaT reference date. *)
Definition rfm_metrics (filtered_data : DataFrame) : list Metrics :=
  match reference_date filtered_data with
  | None => []
  | Some ref =>
      flat_map (fun c => match group_rows filtered_data c with
                         | [] => []
                         | r :: rs => [agg ref c r rs]
                         end)
               (group_keys filtered_data)
  end.

(** ** RFM scoring (app.py 127-147) *)

(** The [for bins in range(5, 1, -1): try ... break / except ValueError:
    continue] loop.  [None] is the column never having been assigned. *)
Fixpoint score_loop (x : list Q) (range : list nat)
  : result (option (list (option Z))) :=
  match range with
  | [] => Ok None
  | bins :: range' =>
      match qcut x bins (range_labels bins) dup_drop with
      | Ok col => Ok (Some col)
      | Raise (ValueError _) => score_loop x range'
      | Raise e => Raise e
      end
  end.

(** [rfm[name]] *)
Definition getitem {A : Type} (name : string) (col : option A) : result A :=
  match col with
  | Some c => Ok c
  | None => Raise (KeyError name)
  end.

(** [.astype(str)] on a categorical score *)
Definition astype_str (s : option Z) : string :=
  match s with
  | Some z => NilZero.string_of_int (Z.to_int z)
  | None => "nan"
  end.

(** [.sum(axis=1)], which skips missing values *)
Definition sum_axis1 (l : list (option Z)) : Z :=
  fold_left (fun acc s => match s with Some z => acc + z | None => acc end) l 0.

Record RFMRow : Type := mkRFMRow {
  metrics : Metrics;
  R_Score : option Z;
  F_Score : option Z;
  M_Score : option Z;
  RFM_Segment : string;
  RFM_Score : Z
}.

Definition composite (m : Metrics) (r f s : option Z) : RFMRow :=
  {| metrics := m;
     R_Score := r;
     F_Score := f;
     M_Score := s;
     RFM_Segment := (astype_str r ++ astype_str f ++ astype_str s)%string;
     RFM_Score := sum_axis1 [r; f; s] |}.

Fixpoint assemble (rfm : list Metrics) (R F M : list (option Z)) : list RFMRow :=
  match rfm, R, F, M with
  | m :: rfm', r :: R', f :: F', s :: M' =>
      composite m r f s :: assemble rfm' R' F' M'
  | _, _, _, _ => []
  end.

Definition Recency_column (rfm : list Metrics) : list Q :=
  map (fun m => inject_Z (Recency m)) rfm.
Definition Frequency_column (rfm : list Metrics) : list Q :=
  map (fun m => inject_Z (Frequency m)) rfm.
Definition Monetary_column (rfm : list Metrics) : list Q := map Monetary rfm.

(** Line 127. *)
Definition r_score_step (rfm : list Metrics) : result (list (option Z)) :=
  qcut (Recency_column rfm) 5 [5; 4; 3; 2; 1] dup_raise.

(** The RFM tab up to the table of line 151. *)
Definition rfm_analysis (filtered_data : DataFrame) : result (list RFMRow) :=
  let rfm := rfm_metrics filtered_data in
  R <- r_score_step rfm ;;
  F <- score_loop (Frequency_column rfm) (range_down 5 1) ;;
  M <- score_loop (Monetary_column rfm) (range_down 5 1) ;;
  F_col <- getitem "F_Score" F ;;
  M_col <- getitem "M_Score" M ;;
  Ok (assemble rfm R F_col M_col).

(** ** Rankings (app.py 77 and 105)

    [frame.sort_values(by='TotalSales', ascending=False).head(n)].
    [sort_values] is called with its default [kind='quicksort'], which
    pandas documents as not stable: the program fixes the result up to the
    order of rows with equal keys only.  The call is therefore described
    by the relation between a frame and its admissible sorted frames. *)

Definition Entry : Type := (string * Q)%type.

Definition descending (l : list Entry) : Prop :=
  StronglySorted (fun a b => (snd b <= snd a)%Q) l.

Definition sort_values_descending (input output : list Entry) : Prop :=
  Permutation input output /\ descending output.

(** [.head(n)] *)
Definition head {A : Type} (n : nat) (l : list A) : list A := firstn n l.

Definition top_n (input : list Entry) (n : nat) (output : list Entry) : Prop :=
  exists sorted, sort_values_descending input sorted /\ output = head n sorted.

(** One admissible sort, the one [kind='stable'] would give: insertion
    from the right, an entry going in front of the entries that do not
    exceed it. *)
Fixpoint insert_descending (e : Entry) (l : list Entry) : list Entry :=
  match l with
  | [] => [e]
  | x :: l' =>
      if Qle_bool (snd x) (snd e) then e :: l else x :: insert_descending e l'
  end.

Definition stable_sort_descending (l : list Entry) : list Entry :=
  fold_right insert_descending [] l.

(** [a] occurs at an earlier position than [b]. *)
Definition Before {A : Type} (a b : A) (l : list A) : Prop :=
  exists l1 l2 l3, l = l1 ++ a :: l2 ++ b :: l3.

(** Stable tie-breaking: entries with equal values keep the relative
    order they have in the input. *)
Definition ties_in_input_order (input output : list Entry) : Prop :=
  forall a b, (snd a == snd b)%Q -> Before a b output -> Before a b input.

(** ** Grouping

    [frame.groupby(key)], with the default [sort=True] and
    [dropna=True]: one group per distinct key present, in ascending key
    order, each holding its rows in table order; rows whose key is
    missing belong to no group. *)

Section GroupBy.

Context {K A : Type}.
Variables (ltb eqb : K -> K -> bool).
Variable key : A -> option K.

Fixpoint insert_group_key (c : K) (keys : list K) : list K :=
  match keys with
  | [] => [c]
  | k :: keys' =>
      if ltb c k then c :: keys
      else if eqb c k then keys
      else k :: insert_group_key c keys'
  end.

Definition groupby_keys (t : list A) : list K :=
  fold_right (fun r keys => match key r with
                            | Some c => insert_group_key c keys
                            | None => keys
                            end) [] t.

Definition in_group (c : K) (r : A) : bool :=
  match key r with
  | Some c' => eqb c' c
  | None => false
  end.

Definition get_group (t : list A) (c : K) : list A := filter (in_group c) t.

Definition groupby (t : list A) : list (K * list A) :=
  map (fun c => (c, get_group t c)) (groupby_keys t).

End GroupBy.

(** ** Data Exploration tab (app.py 35-38) *)

(** [Series.dropna()] *)
Definition dropna {A : Type} (l : list (option A)) : list A :=
  flat_map (fun o => match o with Some a => [a] | None => [] end) l.

Fixpoint unique_ids (seen l : list Z) : list Z :=
  match l with
  | [] => []
  | c :: l' =>
      if existsb (Z.eqb c) seen then unique_ids seen l'
      else c :: unique_ids (c :: seen) l'
  end.

(** [Series.nunique()] on the customer ids: missing ids are not counted *)
Definition nunique_ids (l : list (option Z)) : Z :=
  Z.of_nat (length (unique_ids [] (dropna l))).

Definition total_rows (filtered_data : DataFrame) : Z :=
  Z.of_nat (length filtered_data).
Definition unique_products (filtered_data : DataFrame) : Z :=
  nunique (map StockCode filtered_data).
Definition unique_customers (filtered_data : DataFrame) : Z :=
  nunique_ids (map CustomerID filtered_data).
Definition total_sales_value (filtered_data : DataFrame) : Q :=
  series_sum (map TotalSales filtered_data).

(** ** Sales Trends tab (app.py 48-64) *)

(** [Timestamp.date()]: the calendar day, as a day number *)
Definition date (ts : Z) : Z := ts / ns_per_day.

(** [pd.Timestamp(d)] of a date: midnight of that day *)
Definition Timestamp (d : Z) : Z := d * ns_per_day.

(** [Series.min()] *)
Definition series_min (l : list Z) : option Z :=
  match l with
  | [] => None
  | d :: l' => Some (fold_left Z.min l' d)
  end.

(** The value of the slider when the session state holds no dates:
    the days of the earliest and of the latest invoice. *)
Definition slider_default (filtered_data : DataFrame) : option (Z * Z) :=
  match series_min (map InvoiceDate filtered_data),
        series_max (map InvoiceDate filtered_data) with
  | Some lo, Some hi => Some (date lo, date hi)
  | _, _ => None
  end.

(** Lines 59-60. *)
Definition filtered_time_data (filtered_data : DataFrame)
    (start_date end_date : Z) : DataFrame :=
  filter (fun r => (Z.leb (Timestamp start_date) (InvoiceDate r)
                    && Z.leb (InvoiceDate r) (Timestamp end_date))%bool)
         filtered_data.

(** [groupby(InvoiceDate.dt.date)['TotalSales'].sum()] *)
Definition daily_sales (filtered_time_data : DataFrame) : list (Z * Q) :=
  map (fun g => (fst g, series_sum (map TotalSales (snd g))))
      (groupby Z.ltb Z.eqb (fun r => Some (date (InvoiceDate r)))
               filtered_time_data).

(** [daily_sales.sum()] *)
Definition daily_sales_sum (daily_sales : list (Z * Q)) : Q :=
  series_sum (map snd daily_sales).

(** ** Product Performance tab (app.py 69-72)

    Of the columns used as group keys, only CustomerID can be missing in
    this data model; every row has a Description and a Country. *)

Record ProductRow : Type := mkProductRow {
  p_Description : string;
  p_TotalSales : Q;
  p_Quantity : Z
}.

(** ['sum'] on an integer column *)
Definition series_sum_Z (l : list Z) : Z := fold_left Z.add l 0.

Definition product_performance (filtered_data : DataFrame) : list ProductRow :=
  map (fun g => {| p_Description := fst g;
                   p_TotalSales := series_sum (map TotalSales (snd g));
                   p_Quantity := series_sum_Z (map Quantity (snd g)) |})
      (groupby String.ltb String.eqb (fun r => Some (Description r))
               filtered_data).

(** ** Country Insights tab (app.py 88-91 and 108-109) *)

Record CountryRow : Type := mkCountryRow {
  c_Country : string;
  c_TotalSales : Q;
  c_CustomerID : Z
}.

Definition country_sales (filtered_data : DataFrame) : list CountryRow :=
  map (fun g => {| c_Country := fst g;
                   c_TotalSales := series_sum (map TotalSales (snd g));
                   c_CustomerID := nunique_ids (map CustomerID (snd g)) |})
      (groupby String.ltb String.eqb (fun r => Some (Country r))
               filtered_data).

(** The two figures written when one country is selected. *)
Definition country_figures (filtered_data : DataFrame) : Q * Z :=
  (series_sum (map TotalSales filtered_data),
   nunique_ids (map CustomerID filtered_data)).

(** ** Sales by segment (app.py 160-164) *)

Record SegmentRow : Type := mkSegmentRow {
  s_RFM_Segment : string;
  s_Total_Sales : Q;
  s_Average_Sales : Q;
  s_Customer_Count : Z
}.

(** ['mean'], in exact arithmetic *)
Definition series_mean (l : list Q) : Q :=
  (series_sum l / inject_Z (Z.of_nat (length l)))%Q.

Definition sales_by_segment (rfm : list RFMRow) : list SegmentRow :=
  map (fun g => let monetary := map (fun r => Monetary (metrics r)) (snd g) in
                {| s_RFM_Segment := fst g;
                   s_Total_Sales := series_sum monetary;
                   s_Average_Sales := series_mean monetary;
                   s_Customer_Count := Z.of_nat (length (snd g)) |})
      (groupby String.ltb String.eqb (fun r => Some (RFM_Segment r)) rfm).

(** ** Sample data *)

(** Midnight of day [d] as a timestamp. *)
Definition day (d : Z) : Z := d * ns_per_day.

Definition csv_line (inv : string) (c : option Z) (d q : Z) (p : Q)
    (country : string) : CsvRow :=
  mkCsvRow inv "85123A" "HEART T-LIGHT HOLDER" q (day d) p c country.

Definition tx (inv : string) (c : option Z) (d q : Z) (p : Q)
    (country : string) : Transaction :=
  assign_TotalSales (csv_line inv c d q p country).

(** A file with a sale, a return and a guest sale. *)
Definition sample_csv : list CsvRow :=
  [ csv_line "536365" (Some 17850) 1 6 (255 # 100) "United Kingdom";
    csv_line "C536379" (Some 14527) 1 (-1) (2750 # 100) "United Kingdom";
    csv_line "536370" None 2 24 (375 # 100) "France" ].

(** A file that holds returns only. *)
Definition returns_only_csv : list CsvRow :=
  [ csv_line "C536379" (Some 14527) 1 (-1) (2750 # 100) "United Kingdom" ].

(** Three customers with 1, 2 and 3 invoices. *)
Definition three_customers : DataFrame :=
  [ tx "A1" (Some 1) 30 2 (250 # 1) "France";
    tx "B1" (Some 2) 1 1 (20 # 1) "France";
    tx "B2" (Some 2) 2 3 (10 # 1) "France";
    tx "C1" (Some 3) 5 4 (25 # 1) "Spain";
    tx "C2" (Some 3) 9 2 (25 # 1) "Spain";
    tx "C3" (Some 3) 16 1 (50 # 1) "Spain" ].

(** Four customers with 1, 2, 3 and 4 invoices; the two most recent
    ones last bought on the same day. *)
Definition tied_recency : DataFrame :=
  [ tx "A1" (Some 1) 3 1 (10 # 1) "France";
    tx "B1" (Some 2) 1 2 (10 # 1) "France";
    tx "B2" (Some 2) 3 2 (10 # 1) "France";
    tx "C1" (Some 3) 1 3 (10 # 1) "France";
    tx "C2" (Some 3) 1 3 (10 # 1) "France";
    tx "C3" (Some 3) 2 3 (10 # 1) "France";
    tx "D1" (Some 4) 1 4 (10 # 1) "France";
    tx "D2" (Some 4) 1 4 (10 # 1) "France";
    tx "D3" (Some 4) 1 4 (10 # 1) "France";
    tx "D4" (Some 4) 1 4 (10 # 1) "France" ].

(** Five customers with one invoice each, on five different days. *)
Definition single_purchases : DataFrame :=
  [ tx "A1" (Some 10) 1 1 (10 # 1) "France";
    tx "B1" (Some 11) 2 2 (10 # 1) "France";
    tx "C1" (Some 12) 3 3 (10 # 1) "France";
    tx "D1" (Some 13) 4 4 (10 # 1) "France";
    tx "E1" (Some 14) 5 5 (10 # 1) "France" ].

(** Three sales: one at 10:00 on day 1, one at midnight of day 2 and
    one at 15:00 on day 2. *)
Definition hour (h : Z) : Z := h * 3600000000000.

Definition tx_at (inv : string) (c : option Z) (ts q : Z) (p : Q)
    (country : string) : Transaction :=
  assign_TotalSales (mkCsvRow inv "85123A" "HEART T-LIGHT HOLDER" q ts p c country).

Definition afternoon_sale : Transaction :=
  tx_at "536372" (Some 17850) (day 2 + hour 15) 6 (185 # 100) "United Kingdom".

Definition intraday_sales : DataFrame :=
  [ tx_at "536365" (Some 17850) (day 1 + hour 10) 6 (255 # 100) "United Kingdom";
    tx_at "536370" (Some 12583) (day 2) 24 (375 # 100) "France";
    afternoon_sale ].

(** Seven customers; the two most recent ones have one invoice each and
    the two smallest amounts. *)
Definition seven_customers : DataFrame :=
  [ tx "A1" (Some 1) 7 1 (10 # 1) "France";
    tx "B1" (Some 2) 6 2 (10 # 1) "France";
    tx "C1" (Some 3) 4 1 (10 # 1) "France";
    tx "C2" (Some 3) 5 2 (10 # 1) "France";
    tx "D1" (Some 4) 3 2 (10 # 1) "Spain";
    tx "D2" (Some 4) 4 2 (10 # 1) "Spain";
    tx "E1" (Some 5) 1 1 (10 # 1) "Spain";
    tx "E2" (Some 5) 2 2 (10 # 1) "Spain";
    tx "E3" (Some 5) 3 2 (10 # 1) "Spain";
    tx "F1" (Some 6) 1 2 (10 # 1) "Spain";
    tx "F2" (Some 6) 1 2 (10 # 1) "Spain";
    tx "F3" (Some 6) 2 2 (10 # 1) "Spain";
    tx "G1" (Some 7) 1 1 (10 # 1) "Italy";
    tx "G2" (Some 7) 1 2 (10 # 1) "Italy";
    tx "G3" (Some 7) 1 2 (10 # 1) "Italy";
    tx "G4" (Some 7) 1 2 (10 # 1) "Italy" ].

(** Eighteen products, in the order of their names, that all sold for
    the same amount. *)
Definition product (name : string) : Entry := (name, 10 # 1)%Q.

Definition leading_products : list Entry := [ product "APRON"; product "BAG" ].
Definition middle_products : list Entry :=
  [ product "BOWL"; product "BOX"; product "CANDLE"; product "CLOCK";
    product "CUP"; product "DOORMAT"; product "FRAME"; product "JAR";
    product "LAMP"; product "MUG"; product "NAPKIN"; product "PLATE";
    product "SPOON"; product "TIN"; product "TRAY" ].
Definition trailing_products : list Entry := [ product "VASE" ].

Definition tied_sales : list Entry :=
  leading_products ++ middle_products ++ trailing_products.

(** The same rows after a quicksort partition has exchanged the rows
    around its pivot. *)
Definition tied_sales_partitioned : list Entry :=
  leading_products ++ rev middle_products ++ trailing_products.

Definition tied_sales_top5 : list Entry :=
  [ product "APRON"; product "BAG"; product "TRAY"; product "TIN";
    product "SPOON" ].

(** * Properties *)

(** ** Loader and filter *)

Lemma filtered_data_incl (data : DataFrame) (sel : string) (r : Transaction) :
  In r (filtered_data data sel) -> In r data.
Proof.
  unfold filtered_data. destruct (String.eqb sel "All"); [easy|].
  intros H. apply filter_In in H. tauto.
Qed.

Lemma filter_Restricted (c : string) (t : DataFrame) :
  Restricted c t (filter (fun r => String.eqb (Country r) c) t).
Proof.
  induction t as [|r t IH]; simpl.
  - constructor.
  - destruct (String.eqb (Country r) c) eqn:E.
    + apply String.eqb_eq in E. now constructor.
    + apply String.eqb_neq in E. now constructor.
Qed.

Lemma unique_strings_incl (seen l : list string) (s : string) :
  In s (unique_strings seen l) -> In s l.
Proof.
  revert seen. induction l as [|a l IH]; intros seen; simpl; [easy|].
  destruct (existsb (String.eqb a) seen).
  - intros H. right. now apply (IH seen).
  - intros [H|H]; [now left|]. right. now apply (IH (a :: seen)).
Qed.

(** C7: every row of the working table, and so of every filtered table,
    has a positive quantity and a TotalSales equal to Quantity times
    UnitPrice. *)
Theorem loaded_rows_quantity_and_line_total
    (csv : list CsvRow) (selected_country : string) (r : Transaction) :
  In r (filtered_data (load_and_clean_data csv) selected_country) ->
  In r (load_and_clean_data csv) /\
  0 < Quantity r /\
  TotalSales r = (inject_Z (Quantity r) * UnitPrice r)%Q.
Proof.
  intros H. apply filtered_data_incl in H. split; [exact H|].
  unfold load_and_clean_data in H. apply filter_In in H.
  destruct H as [Hin Hq]. apply Z.ltb_lt in Hq. split; [exact Hq|].
  apply in_map_iff in Hin. destruct Hin as [c [<- _]]. reflexivity.
Qed.

Lemma loaded_rows_quantity_and_line_total_witness :
  let r := tx "536365" (Some 17850) 1 6 (255 # 100) "United Kingdom" in
  In r (load_and_clean_data sample_csv) /\
  0 < Quantity r /\
  TotalSales r = (inject_Z (Quantity r) * UnitPrice r)%Q.
Proof.
  apply (loaded_rows_quantity_and_line_total sample_csv "United Kingdom").
  simpl. left. reflexivity.
Defined.

(** C8: the filter is a function of the table and the selection; "All"
    yields the table itself, any other value exactly the rows of that
    country, in order; every frame that existed before the filter,
    the input among them, is unchanged. *)
Theorem filter_stage_result_and_frames
    (h : Heap) (data : nat) (selected_country : string) :
  (data < length h)%nat ->
  let table := deref h data in
  let h' := fst (filter_stage h data selected_country) in
  let out := snd (filter_stage h data selected_country) in
  deref h' out = filtered_data table selected_country /\
  (selected_country = "All" -> deref h' out = table) /\
  (selected_country <> "All" ->
   Restricted selected_country table (deref h' out)) /\
  (forall ref, (ref < length h)%nat -> deref h' ref = deref h ref).
Proof.
  intros Hd table h' out. subst table h' out.
  unfold filter_stage, filtered_data.
  destruct (String.eqb selected_country "All") eqn:E; simpl.
  - apply String.eqb_eq in E. repeat split; auto. intros Hn. contradiction.
  - apply String.eqb_neq in E.
    assert (Hnew : forall x, deref (h ++ [x]) (length h) = x).
    { intros x. unfold deref. rewrite app_nth2 by lia.
      now rewrite Nat.sub_diag. }
    repeat split.
    + apply Hnew.
    + intros Hall. contradiction.
    + intros _. rewrite Hnew. apply filter_Restricted.
    + intros ref Hr. unfold deref. now rewrite app_nth1.
Qed.

Lemma filter_stage_result_and_frames_witness :
  let h := [load_and_clean_data sample_csv] in
  let h' := fst (filter_stage h 0 "France") in
  let out := snd (filter_stage h 0 "France") in
  deref h' out = filtered_data (deref h 0%nat) "France" /\
  ("France" = "All" -> deref h' out = deref h 0%nat) /\
  ("France" <> "All" -> Restricted "France" (deref h 0%nat) (deref h' out)) /\
  (forall ref, (ref < length h)%nat -> deref h' ref = deref h ref).
Proof.
  apply (filter_stage_result_and_frames [load_and_clean_data sample_csv] 0 "France").
  simpl. lia.
Defined.

(** ** Reference date and recency *)

Lemma fold_max_latest (l : list Z) (d : Z) :
  is_latest (fold_left Z.max l d) (d :: l).
Proof.
  revert d. induction l as [|e l IH]; intros d; simpl.
  - split; [now left|]. intros x [<-|[]]. lia.
  - destruct (IH (Z.max d e)) as [Hin Hub]. split.
    + destruct Hin as [Hin|Hin]; [|now right; right].
      rewrite <- Hin. destruct (Z.max_spec d e) as [[_ ->]|[_ ->]]; simpl; tauto.
    + intros x Hx.
      assert (Hde : d <= Z.max d e /\ e <= Z.max d e) by lia.
      destruct Hx as [<-|[<-|Hx]].
      * specialize (Hub (Z.max d e) (or_introl eq_refl)). lia.
      * specialize (Hub (Z.max d e) (or_introl eq_refl)). lia.
      * apply Hub. now right.
Qed.

Lemma reference_date_latest (t : DataFrame) :
  t <> [] ->
  exists last, is_latest last (map InvoiceDate t) /\
               reference_date t = Some (last + ns_per_day).
Proof.
  destruct t as [|r t]; [easy|]. intros _.
  exists (fold_left Z.max (map InvoiceDate t) (InvoiceDate r)). split.
  - apply (fold_max_latest (map InvoiceDate t) (InvoiceDate r)).
  - reflexivity.
Qed.

Lemma insert_key_In (c k : Z) (keys : list Z) :
  In k (insert_key c keys) <-> k = c \/ In k keys.
Proof.
  induction keys as [|a keys IH]; simpl.
  - intuition.
  - destruct (Z.ltb c a) eqn:E1; simpl; [intuition|].
    destruct (Z.eqb c a) eqn:E2; simpl.
    + apply Z.eqb_eq in E2. subst. intuition.
    + rewrite IH. intuition.
Qed.

Lemma group_keys_In (t : DataFrame) (c : Z) :
  In c (group_keys t) <-> exists r, In r t /\ CustomerID r = Some c.
Proof.
  induction t as [|a t IH]; simpl.
  - split; [easy|]. intros [r [[] _]].
  - destruct (CustomerID a) as [c'|] eqn:E.
    + rewrite insert_key_In, IH. split.
      * intros [->|[r [Hr Hc]]]; [exists a; auto|exists r; auto].
      * intros [r [[<-|Hr] Hc]].
        -- left. congruence.
        -- right. exists r. auto.
    + rewrite IH. split.
      * intros [r [Hr Hc]]. exists r; auto.
      * intros [r [[<-|Hr] Hc]]; [congruence|exists r; auto].
Qed.

Lemma has_customer_true (c : Z) (r : Transaction) :
  has_customer c r = true <-> CustomerID r = Some c.
Proof.
  unfold has_customer. destruct (CustomerID r) as [c'|].
  - rewrite Z.eqb_eq. split; congruence.
  - split; discriminate.
Qed.

(** The rows of [rfm] are the aggregates of the non-empty groups. *)
Lemma rfm_metrics_In (t : DataFrame) (row : Metrics) :
  In row (rfm_metrics t) <->
  exists ref r rs,
    reference_date t = Some ref /\
    In (m_CustomerID row) (group_keys t) /\
    group_rows t (m_CustomerID row) = r :: rs /\
    row = agg ref (m_CustomerID row) r rs.
Proof.
  unfold rfm_metrics. destruct (reference_date t) as [ref|].
  - rewrite in_flat_map. split.
    + intros [c [Hc Hrow]]. destruct (group_rows t c) as [|r rs] eqn:G; [easy|].
      destruct Hrow as [<-|[]]. simpl. exists ref, r, rs. rewrite G. auto.
    + intros [ref' [r [rs [Href [Hk [G ->]]]]]]. simpl in *.
      injection Href as <-.
      exists (m_CustomerID (agg ref (m_CustomerID row) r rs)). simpl.
      split; [exact Hk|]. rewrite G. now left.
  - split; [easy|]. intros [ref [r [rs [H _]]]]. discriminate.
Qed.

Lemma ns_per_day_pos : 0 < ns_per_day.
Proof. reflexivity. Qed.

(** C4: on a non-empty table the reference date is the latest invoice
    date plus one day, every customer of the table has a row in [rfm],
    and the Recency of a row is the number of whole days between the
    customer's latest invoice date and the reference date. *)
Theorem reference_date_and_recency (t : DataFrame) :
  t <> [] ->
  exists last,
    is_latest last (map InvoiceDate t) /\
    reference_date t = Some (last + ns_per_day) /\
    (forall r c, In r t -> CustomerID r = Some c ->
       exists row, In row (rfm_metrics t) /\ m_CustomerID row = c) /\
    (forall row, In row (rfm_metrics t) ->
       exists last_c,
         is_latest last_c (map InvoiceDate (group_rows t (m_CustomerID row))) /\
         Recency row = days (last + ns_per_day - last_c) /\
         Recency row * ns_per_day <= last + ns_per_day - last_c
           < (Recency row + 1) * ns_per_day).
Proof.
  intros Hne. destruct (reference_date_latest t Hne) as [last [Hlast Href]].
  exists last. repeat split; try apply Hlast; try exact Href.
  - intros r c Hr Hc.
    assert (Hk : In c (group_keys t)) by (apply group_keys_In; eauto).
    destruct (group_rows t c) as [|g gs] eqn:G.
    + assert (Hg : In r (group_rows t c)).
      { apply filter_In. split; [exact Hr|]. now apply has_customer_true. }
      rewrite G in Hg. destruct Hg.
    + exists (agg (last + ns_per_day) c g gs). split; [|reflexivity].
      apply rfm_metrics_In. exists (last + ns_per_day), g, gs. simpl. auto.
  - intros row Hrow. apply rfm_metrics_In in Hrow.
    destruct Hrow as [ref [g [gs [Href' [_ [G Hagg]]]]]].
    rewrite Href in Href'. injection Href' as <-.
    exists (fold_left Z.max (map InvoiceDate gs) (InvoiceDate g)).
    rewrite G. split; [apply (fold_max_latest (map InvoiceDate gs))|].
    assert (HR : Recency row
                 = days (last + ns_per_day
                         - fold_left Z.max (map InvoiceDate gs) (InvoiceDate g))).
    { rewrite Hagg at 1. reflexivity. }
    split; [exact HR|]. rewrite HR. unfold days.
    pose proof ns_per_day_pos as Hp.
    set (d := last + ns_per_day - _).
    pose proof (Z.mul_div_le d ns_per_day Hp).
    pose proof (Z.mul_succ_div_gt d ns_per_day Hp). lia.
Qed.

Lemma reference_date_and_recency_witness :
  exists last,
    is_latest last (map InvoiceDate three_customers) /\
    reference_date three_customers = Some (last + ns_per_day) /\
    (forall r c, In r three_customers -> CustomerID r = Some c ->
       exists row, In row (rfm_metrics three_customers) /\ m_CustomerID row = c) /\
    (forall row, In row (rfm_metrics three_customers) ->
       exists last_c,
         is_latest last_c
           (map InvoiceDate (group_rows three_customers (m_CustomerID row))) /\
         Recency row = days (last + ns_per_day - last_c) /\
         Recency row * ns_per_day <= last + ns_per_day - last_c
           < (Recency row + 1) * ns_per_day).
Proof.
  apply (reference_date_and_recency three_customers). discriminate.
Defined.

(** C10: every Recency is at least one day. *)
Theorem recency_at_least_one (t : DataFrame) (row : Metrics) :
  In row (rfm_metrics t) -> 1 <= Recency row.
Proof.
  intros Hrow. pose proof Hrow as Hrow'. apply rfm_metrics_In in Hrow'.
  destruct Hrow' as [ref [g [gs [Href [_ [G Hagg]]]]]].
  assert (Hne : t <> []).
  { intros ->. discriminate Href. }
  destruct (reference_date_latest t Hne) as [last [[_ Hub] Href']].
  rewrite Href in Href'. injection Href' as ->.
  destruct (fold_max_latest (map InvoiceDate gs) (InvoiceDate g)) as [Hin _].
  change (InvoiceDate g :: map InvoiceDate gs)
    with (map InvoiceDate (g :: gs)) in Hin.
  rewrite <- G in Hin. apply in_map_iff in Hin.
  destruct Hin as [x [Hx Hxin]]. apply filter_In in Hxin.
  assert (Hle : InvoiceDate x <= last).
  { apply Hub. apply in_map. tauto. }
  rewrite Hagg. simpl. rewrite <- Hx. unfold days.
  apply Z.div_le_lower_bound; [apply ns_per_day_pos|]. lia.
Qed.

Lemma recency_at_least_one_witness :
  1 <= Recency (mkMetrics 2 29 2 50%Q).
Proof.
  apply (recency_at_least_one three_customers). vm_compute. auto.
Defined.

(** ** Quantile binning *)

Lemma Qle_bool_false (v w : Q) : Qle_bool v w = false -> (w < v)%Q.
Proof.
  intros H. apply Qnot_le_lt. intros Hle.
  apply Qle_bool_iff in Hle. congruence.
Qed.

Lemma insert_sorted_In (a v : Q) (l : list Q) :
  In v (insert_sorted a l) <-> v = a \/ In v l.
Proof.
  induction l as [|w l IH]; simpl.
  - intuition.
  - destruct (Qle_bool a w); simpl; [intuition|]. rewrite IH. intuition.
Qed.

Lemma np_sort_In (x : list Q) (v : Q) : In v (np_sort x) <-> In v x.
Proof.
  induction x as [|a x IH]; simpl; [tauto|].
  rewrite insert_sorted_In, IH. intuition.
Qed.

Lemma insert_sorted_length (a : Q) (l : list Q) :
  length (insert_sorted a l) = S (length l).
Proof.
  induction l as [|w l IH]; simpl; [reflexivity|].
  destruct (Qle_bool a w); simpl; congruence.
Qed.

Lemma np_sort_length (x : list Q) : length (np_sort x) = length x.
Proof.
  induction x as [|a x IH]; simpl; [reflexivity|].
  now rewrite insert_sorted_length, IH.
Qed.

Lemma insert_sorted_sorted (a : Q) (l : list Q) :
  StronglySorted Qle l -> StronglySorted Qle (insert_sorted a l).
Proof.
  induction 1 as [|w l Hs IH Hall]; simpl.
  - repeat constructor.
  - destruct (Qle_bool a w) eqn:E.
    + apply Qle_bool_iff in E. constructor; [now constructor|].
      constructor; [exact E|].
      rewrite Forall_forall in *. intros y Hy.
      apply Qle_trans with w; auto.
    + apply Qle_bool_false in E. constructor; [exact IH|].
      rewrite Forall_forall in *. intros y Hy.
      apply insert_sorted_In in Hy. destruct Hy as [->|Hy]; auto.
      now apply Qlt_le_weak.
Qed.

Lemma np_sort_sorted (x : list Q) : StronglySorted Qle (np_sort x).
Proof.
  induction x as [|a x IH]; simpl; [constructor|].
  now apply insert_sorted_sorted.
Qed.

Lemma sorted_first_least (l : list Q) (v : Q) :
  StronglySorted Qle l -> In v l -> (nth 0 l 0 <= v)%Q.
Proof.
  intros Hs Hin. destruct Hs as [|w l Hs Hall]; [easy|]. simpl.
  destruct Hin as [<-|Hin]; [apply Qle_refl|].
  rewrite Forall_forall in Hall. auto.
Qed.

Lemma sorted_last_greatest (l : list Q) (v : Q) :
  StronglySorted Qle l -> In v l -> (v <= nth (length l - 1) l 0)%Q.
Proof.
  intros Hs. revert v. induction Hs as [|w l Hs IH Hall]; [easy|].
  intros v Hin. destruct l as [|w' l'].
  - destruct Hin as [<-|[]]. apply Qle_refl.
  - change (nth (length (w :: w' :: l') - 1) (w :: w' :: l') 0%Q)
      with (nth (length l') (w' :: l') 0%Q).
    replace (length l') with (length (w' :: l') - 1)%nat by (simpl; lia).
    destruct Hin as [<-|Hin]; [|auto].
    apply Qle_trans with w'.
    + rewrite Forall_forall in Hall. apply Hall. now left.
    + apply IH. now left.
Qed.

Lemma quantile_first (s : list Q) (k : nat) :
  (quantile s 0 k == nth 0 s 0)%Q.
Proof.
  unfold quantile. rewrite Z.mul_0_r, Zdiv_0_l, Zmod_0_l. simpl Z.to_nat.
  set (lo := nth 0 s 0%Q). set (hi := nth _ s 0%Q).
  assert (H : (0 # Pos.of_nat k == 0)%Q) by reflexivity.
  rewrite H. ring.
Qed.

Lemma quantile_last (s : list Q) (k : nat) :
  (0 < k)%nat -> (quantile s k k == nth (length s - 1) s 0)%Q.
Proof.
  intros Hk. unfold quantile.
  assert (Hz : Z.of_nat k <> 0%Z) by lia.
  rewrite Z.div_mul, Z.mod_mul by exact Hz. rewrite Nat2Z.id.
  set (lo := nth _ s 0%Q). set (hi := nth _ s 0%Q).
  assert (H : (0 # Pos.of_nat k == 0)%Q) by reflexivity.
  rewrite H. ring.
Qed.

Lemma quantile_edges_length (x : list Q) (k : nat) :
  length (quantile_edges x k) = (k + 1)%nat.
Proof. unfold quantile_edges. now rewrite length_map, length_seq. Qed.

Lemma quantile_edges_nth (x : list Q) (k i : nat) :
  (i <= k)%nat ->
  nth i (quantile_edges x k) 0%Q = quantile (np_sort x) i k.
Proof.
  intros Hi. unfold quantile_edges.
  rewrite nth_indep with (d' := quantile (np_sort x) 0 k)
    by (rewrite length_map, length_seq; lia).
  rewrite (map_nth (fun i => quantile (np_sort x) i k)).
  now rewrite seq_nth by lia.
Qed.

(** The first edge is the least value of the column and the last edge
    the greatest. *)
Lemma quantile_edges_bounds (x : list Q) (k : nat) (v : Q) :
  (0 < k)%nat -> In v x ->
  let bins := quantile_edges x k in
  (nth 0 bins 0 <= v <= nth (length bins - 1) bins 0)%Q.
Proof.
  intros Hk Hin bins. subst bins. rewrite quantile_edges_length.
  replace (k + 1 - 1)%nat with k by lia.
  rewrite !quantile_edges_nth by lia.
  rewrite quantile_first, quantile_last by exact Hk.
  apply np_sort_In in Hin. split.
  - apply sorted_first_least; [apply np_sort_sorted|exact Hin].
  - apply sorted_last_greatest; [apply np_sort_sorted|exact Hin].
Qed.

Lemma searchsorted_left_monotone (bins : list Q) (v w : Q) :
  (v <= w)%Q -> (searchsorted_left bins v <= searchsorted_left bins w)%nat.
Proof.
  intros Hvw. induction bins as [|b bins IH]; simpl; [lia|].
  destruct (Qle_bool w b) eqn:Ew.
  - apply Qle_bool_iff in Ew.
    assert (Ev : Qle_bool v b = true).
    { apply Qle_bool_iff. now apply Qle_trans with w. }
    rewrite Ev. lia.
  - destruct (Qle_bool v b); lia.
Qed.

Lemma searchsorted_left_below_last (bins : list Q) (v : Q) :
  bins <> [] -> (v <= nth (length bins - 1) bins 0)%Q ->
  (searchsorted_left bins v <= length bins - 1)%nat.
Proof.
  induction bins as [|b bins IH]; [easy|]. intros _ Hv. simpl.
  destruct (Qle_bool v b) eqn:E; [lia|].
  destruct bins as [|b' bins'].
  - simpl in Hv. apply Qle_bool_iff in Hv. congruence.
  - assert (H : (searchsorted_left (b' :: bins') v
                 <= length (b' :: bins') - 1)%nat).
    { apply IH; [discriminate|].
      replace (length (b' :: bins') - 1)%nat with (length bins')
        by (simpl; lia).
      exact Hv. }
    simpl in *. lia.
Qed.

(** A value between the first and the last edge falls in one of the
    bins 1 .. len(bins) - 1. *)
Lemma bin_id_in_range (bins : list Q) (v : Q) :
  (2 <= length bins)%nat ->
  (nth 0 bins 0 <= v <= nth (length bins - 1) bins 0)%Q ->
  (1 <= bin_id bins v <= length bins - 1)%nat /\
  bin_id bins v =
    (if Qeq_bool v (nth 0 bins 0%Q) then 1%nat else searchsorted_left bins v).
Proof.
  intros Hlen [Hlo Hhi]. unfold bin_id.
  destruct (Qeq_bool v (nth 0 bins 0%Q)) eqn:E.
  - replace (Nat.eqb 1 (length bins)) with false
      by (symmetry; apply Nat.eqb_neq; lia).
    simpl. split; [lia|reflexivity].
  - assert (Hs : (searchsorted_left bins v <= length bins - 1)%nat).
    { apply searchsorted_left_below_last; [|exact Hhi].
      intros ->. simpl in Hlen. lia. }
    assert (H1 : (1 <= searchsorted_left bins v)%nat).
    { destruct bins as [|b bins]; [simpl in Hlen; lia|]. simpl in *.
      destruct (Qle_bool v b) eqn:Eb; [|lia].
      apply Qle_bool_iff in Eb. apply Qeq_bool_neq in E.
      exfalso. apply E. now apply Qle_antisym. }
    replace (Nat.eqb (searchsorted_left bins v) (length bins)) with false
      by (symmetry; apply Nat.eqb_neq; lia).
    replace (Nat.eqb (searchsorted_left bins v) 0) with false
      by (symmetry; apply Nat.eqb_neq; lia).
    simpl. split; [lia|reflexivity].
Qed.

(** A larger value never falls in an earlier bin. *)
Lemma bin_id_monotone (bins : list Q) (v w : Q) :
  (2 <= length bins)%nat ->
  (nth 0 bins 0 <= v <= nth (length bins - 1) bins 0)%Q ->
  (nth 0 bins 0 <= w <= nth (length bins - 1) bins 0)%Q ->
  (v <= w)%Q -> (bin_id bins v <= bin_id bins w)%nat.
Proof.
  intros Hlen Hv Hw Hvw.
  destruct (bin_id_in_range bins v Hlen Hv) as [Rv Ev].
  destruct (bin_id_in_range bins w Hlen Hw) as [Rw Ew].
  destruct (Qeq_bool v (nth 0 bins 0%Q)) eqn:E1; [lia|].
  destruct (Qeq_bool w (nth 0 bins 0%Q)) eqn:E2.
  - apply Qeq_bool_iff in E2. apply Qeq_bool_neq in E1. exfalso. apply E1.
    apply Qle_antisym; [|tauto]. rewrite <- E2. exact Hvw.
  - rewrite Ev, Ew. now apply searchsorted_left_monotone.
Qed.

(** What a successful call of line 127 returned. *)
Lemma r_score_step_Ok (rfm : list Metrics) (R : list (option Z)) :
  r_score_step rfm = Ok R ->
  R = map (fun v => take_label [5; 4; 3; 2; 1]
                      (bin_id (quantile_edges (Recency_column rfm) 5) v))
          (Recency_column rfm).
Proof.
  unfold r_score_step, qcut, bins_to_cuts.
  rewrite quantile_edges_length.
  destruct (Nat.ltb _ _ && _)%bool; simpl; [discriminate|].
  congruence.
Qed.

Lemma take_reversed_label (id : nat) :
  (1 <= id <= 5)%nat ->
  take_label [5; 4; 3; 2; 1] id = Some (6 - Z.of_nat id).
Proof.
  intros H.
  destruct id as [|[|[|[|[|[|id]]]]]]; try lia; reflexivity.
Qed.

Lemma In_combine_map {A B : Type} (f : A -> B) (l : list A) (a : A) (b : B) :
  In (a, b) (combine l (map f l)) -> In a l /\ b = f a.
Proof.
  induction l as [|x l IH]; simpl; [easy|].
  intros [H|H]; [injection H as <- <-; auto|]. destruct (IH H). auto.
Qed.

(** The labels 5, 4, 3, 2, 1 on the bins of the recency quantiles: every
    customer gets a label, and a smaller Recency never gets a lower one. *)
Lemma recency_labels_antitone (rfm : list Metrics) (a b : Metrics) :
  In a rfm -> In b rfm -> Recency a < Recency b ->
  let score := fun v => take_label [5; 4; 3; 2; 1]
                          (bin_id (quantile_edges (Recency_column rfm) 5) v) in
  exists ra rb,
    score (inject_Z (Recency a)) = Some ra /\
    score (inject_Z (Recency b)) = Some rb /\
    1 <= rb <= ra /\ ra <= 5.
Proof.
  intros Ha Hb Hlt score. subst score.
  set (bins := quantile_edges (Recency_column rfm) 5).
  assert (L : length bins = 6%nat) by (subst bins; apply quantile_edges_length).
  assert (Hlen : (2 <= length bins)%nat) by lia.
  assert (Hrange : forall m, In m rfm ->
            (nth 0 bins 0 <= inject_Z (Recency m)
             <= nth (length bins - 1) bins 0)%Q).
  { intros m Hm. apply quantile_edges_bounds; [lia|].
    unfold Recency_column.
    apply (in_map (fun m => inject_Z (Recency m))). exact Hm. }
  destruct (bin_id_in_range bins _ Hlen (Hrange a Ha)) as [Ra _].
  destruct (bin_id_in_range bins _ Hlen (Hrange b Hb)) as [Rb _].
  assert (Hmono : (bin_id bins (inject_Z (Recency a))
                   <= bin_id bins (inject_Z (Recency b)))%nat).
  { apply bin_id_monotone; auto.
    apply Qlt_le_weak. rewrite <- Zlt_Qlt. exact Hlt. }
  rewrite L in Ra, Rb.
  exists (6 - Z.of_nat (bin_id bins (inject_Z (Recency a)))),
         (6 - Z.of_nat (bin_id bins (inject_Z (Recency b)))).
  rewrite !take_reversed_label by lia. repeat split; lia.
Qed.

Lemma In_combine_scores (rfm : list Metrics) (f : Q -> option Z)
    (a : Metrics) (s : option Z) :
  In (a, s) (combine rfm (map f (Recency_column rfm))) ->
  In a rfm /\ s = f (inject_Z (Recency a)).
Proof.
  unfold Recency_column. rewrite map_map.
  apply (In_combine_map (fun m => f (inject_Z (Recency m)))).
Qed.

(** C5: in a cohort that line 127 scored, a customer with a smaller
    Recency has an R_Score that is not lower; both scores are present
    and lie between 1 and 5. *)
Theorem recency_score_antitone
    (rfm : list Metrics) (R : list (option Z))
    (a b : Metrics) (sa sb : option Z) :
  r_score_step rfm = Ok R ->
  In (a, sa) (combine rfm R) -> In (b, sb) (combine rfm R) ->
  Recency a < Recency b ->
  exists ra rb, sa = Some ra /\ sb = Some rb /\ 1 <= rb <= ra /\ ra <= 5.
Proof.
  intros HR Ha Hb Hlt. apply r_score_step_Ok in HR. subst R.
  apply In_combine_scores in Ha, Hb.
  destruct Ha as [Ha ->], Hb as [Hb ->].
  exact (recency_labels_antitone rfm a b Ha Hb Hlt).
Qed.

Lemma recency_score_antitone_witness :
  exists ra rb, Some 5 = Some ra /\ Some 1 = Some rb /\ 1 <= rb <= ra /\ ra <= 5.
Proof.
  apply (recency_score_antitone (rfm_metrics three_customers)
           [Some 5; Some 1; Some 3]
           (mkMetrics 1 1 1 (500 # 1)) (mkMetrics 2 29 2 (50 # 1))).
  - vm_compute. reflexivity.
  - vm_compute. auto.
  - vm_compute. auto.
  - vm_compute. reflexivity.
Defined.

(** ** The retry loops and the composite columns *)

(** [qcut] raises nothing but ValueError, so the [except ValueError]
    clause of the loops catches every failure of the binning. *)
Lemma qcut_raises_ValueError (x : list Q) (q : nat) (labels : list Z)
    (duplicates : duplicates_kw) (e : exn) :
  qcut x q labels duplicates = Raise e -> exists msg, e = ValueError msg.
Proof.
  unfold qcut, bins_to_cuts.
  destruct (Nat.ltb _ _ && _)%bool; [destruct duplicates|]; cbn [bind];
    repeat match goal with
           | |- (if ?c then _ else _) = _ -> _ => destruct c
           end;
    intros H; try discriminate H; injection H as <-; eauto.
Qed.

(** The loop returns the column of the first bin count, in the order
    given, at which [qcut] does not raise, and no column when it raises
    at every one of them. *)
Lemma score_loop_first_success (x : list Q) (range : list nat) :
  (exists tried bins rest col,
      range = tried ++ bins :: rest /\
      (forall k, In k tried ->
         exists msg, qcut x k (range_labels k) dup_drop = Raise (ValueError msg)) /\
      qcut x bins (range_labels bins) dup_drop = Ok col /\
      score_loop x range = Ok (Some col))
  \/ ((forall k, In k range ->
         exists msg, qcut x k (range_labels k) dup_drop = Raise (ValueError msg)) /\
      score_loop x range = Ok None).
Proof.
  induction range as [|k range IH]; simpl.
  - right. split; [easy|reflexivity].
  - destruct (qcut x k (range_labels k) dup_drop) as [col|e] eqn:E.
    + left. exists [], k, range, col. simpl. repeat split; auto. easy.
    + destruct (qcut_raises_ValueError _ _ _ _ _ E) as [msg ->].
      destruct IH as [[tried [bins [rest [col [-> [Ht [Hb Hs]]]]]]]|[Hall Hs]].
      * left. exists (k :: tried), bins, rest, col. simpl. repeat split; auto.
        intros k' [<-|Hk']; [eauto|auto].
      * right. split; [|exact Hs].
        intros k' [<-|Hk']; [eauto|auto].
Qed.

(** The loops themselves never raise. *)
Lemma score_loop_returns (x : list Q) (range : list nat) :
  exists col, score_loop x range = Ok col.
Proof.
  destruct (score_loop_first_success x range)
    as [[_ [_ [_ [col [_ [_ [_ H]]]]]]]|[_ H]]; eauto.
Qed.

Lemma range_5_to_2 : range_down 5 1 = [5; 4; 3; 2]%nat.
Proof. reflexivity. Qed.

Lemma assemble_In (rfm : list Metrics) (R F M : list (option Z)) (row : RFMRow) :
  In row (assemble rfm R F M) ->
  exists m r f s, In m rfm /\ In (m, r) (combine rfm R) /\
                  row = composite m r f s.
Proof.
  revert R F M. induction rfm as [|m rfm IH]; intros R F M; simpl; [easy|].
  destruct R as [|r R]; [easy|]. destruct F as [|f F]; [easy|].
  destruct M as [|s M]; [easy|]. intros [<-|H].
  - exists m, r, f, s. simpl. auto.
  - destruct (IH _ _ _ H) as [m' [r' [f' [s' [H1 [H2 H3]]]]]].
    exists m', r', f', s'. simpl. auto.
Qed.

Lemma rfm_analysis_Ok (t : DataFrame) (rows : list RFMRow) :
  rfm_analysis t = Ok rows ->
  exists R F M,
    r_score_step (rfm_metrics t) = Ok R /\
    score_loop (Frequency_column (rfm_metrics t)) (range_down 5 1) = Ok (Some F) /\
    score_loop (Monetary_column (rfm_metrics t)) (range_down 5 1) = Ok (Some M) /\
    rows = assemble (rfm_metrics t) R F M.
Proof.
  unfold rfm_analysis. intros H.
  destruct (r_score_step (rfm_metrics t)) as [R|e];
    destruct (score_loop (Frequency_column (rfm_metrics t)) (range_down 5 1))
      as [[F|]|e1];
    destruct (score_loop (Monetary_column (rfm_metrics t)) (range_down 5 1))
      as [[M|]|e2];
    cbn [bind getitem] in H; try discriminate H.
  injection H as <-. exists R, F, M. auto.
Qed.

(** The antitone recency score, read on the rows of the final table. *)
Lemma rfm_rows_recency_score (t : DataFrame) (rows : list RFMRow) (a b : RFMRow) :
  rfm_analysis t = Ok rows -> In a rows -> In b rows ->
  Recency (metrics a) < Recency (metrics b) ->
  exists ra rb, R_Score a = Some ra /\ R_Score b = Some rb /\ rb <= ra.
Proof.
  intros H Ha Hb Hlt. apply rfm_analysis_Ok in H.
  destruct H as [R [F [M [HR [_ [_ ->]]]]]].
  apply assemble_In in Ha, Hb.
  destruct Ha as [ma [ra [fa [sa [_ [Ha ->]]]]]].
  destruct Hb as [mb [rb [fb [sb [_ [Hb ->]]]]]]. simpl in *.
  apply r_score_step_Ok in HR. subst R.
  apply In_combine_scores in Ha, Hb.
  destruct Ha as [Ha ->], Hb as [Hb ->].
  destruct (recency_labels_antitone (rfm_metrics t) ma mb Ha Hb Hlt)
    as [x [y [Hx [Hy Hxy]]]].
  exists x, y. repeat split; [exact Hx|exact Hy|lia].
Qed.

(** Line 127 raises as soon as the six recency edges are not distinct. *)
Lemma r_score_step_raises (rfm : list Metrics) :
  (length (pd_unique (quantile_edges (Recency_column rfm) 5)) < 6)%nat ->
  r_score_step rfm = Raise (ValueError "Bin edges must be unique").
Proof.
  intros H. unfold r_score_step, qcut, bins_to_cuts.
  rewrite quantile_edges_length.
  replace (Nat.ltb _ _) with true by (symmetry; apply Nat.ltb_lt; lia).
  reflexivity.
Qed.

(** When a retry loop ends without a column, line 146 raises KeyError
    for that column. *)
Lemma exhausted_loop_KeyError (t : DataFrame) (R : list (option Z)) :
  r_score_step (rfm_metrics t) = Ok R ->
  (score_loop (Frequency_column (rfm_metrics t)) (range_down 5 1) = Ok None ->
   rfm_analysis t = Raise (KeyError "F_Score")) /\
  (forall F,
   score_loop (Frequency_column (rfm_metrics t)) (range_down 5 1) = Ok (Some F) ->
   score_loop (Monetary_column (rfm_metrics t)) (range_down 5 1) = Ok None ->
   rfm_analysis t = Raise (KeyError "M_Score")).
Proof.
  intros HR. unfold rfm_analysis. rewrite HR. cbn [bind]. split.
  - intros ->.
    destruct (score_loop_returns (Monetary_column (rfm_metrics t))
                                 (range_down 5 1)) as [M ->].
    reflexivity.
  - intros F -> ->. reflexivity.
Qed.

(** C6: on every row of the final table whose three scores are present,
    RFM_Score is their sum and RFM_Segment is their decimal strings
    concatenated in the order R, F, M. *)
Theorem composite_fields_of_scored_row
    (t : DataFrame) (rows : list RFMRow) (row : RFMRow) (r f m : Z) :
  rfm_analysis t = Ok rows -> In row rows ->
  R_Score row = Some r -> F_Score row = Some f -> M_Score row = Some m ->
  RFM_Score row = r + f + m /\
  RFM_Segment row =
    (NilZero.string_of_int (Z.to_int r)
     ++ NilZero.string_of_int (Z.to_int f)
     ++ NilZero.string_of_int (Z.to_int m))%string.
Proof.
  intros H Hin Hr Hf Hm. apply rfm_analysis_Ok in H.
  destruct H as [R [F [M [_ [_ [_ ->]]]]]].
  apply assemble_In in Hin.
  destruct Hin as [m0 [r0 [f0 [s0 [_ [_ ->]]]]]]. simpl in *. subst.
  split; reflexivity.
Qed.

Lemma composite_fields_of_scored_row_witness :
  let row := composite (mkMetrics 2 29 2 (50 # 1)) (Some 1) (Some 3) (Some 1) in
  RFM_Score row = 1 + 3 + 1 /\ RFM_Segment row = "131".
Proof.
  apply (composite_fields_of_scored_row three_customers
           [ composite (mkMetrics 1 1 1 (500 # 1)) (Some 5) (Some 1) (Some 5);
             composite (mkMetrics 2 29 2 (50 # 1)) (Some 1) (Some 3) (Some 1);
             composite (mkMetrics 3 15 3 (200 # 1)) (Some 3) (Some 5) (Some 3) ]).
  - vm_compute. reflexivity.
  - simpl. auto.
  - reflexivity.
  - reflexivity.
  - reflexivity.
Defined.

(** C1: on a cohort whose recency values do not give six distinct
    edges, line 127 raises at once and the tab stops, although the retry
    loop of the two other metrics, run on the same recency values, ends
    with two bins; the frequency and monetary loops of that cohort
    succeed. *)
Theorem recency_binning_is_not_retried :
  Recency_column (rfm_metrics tied_recency) = map inject_Z [1; 1; 2; 3] /\
  rfm_analysis tied_recency = Raise (ValueError "Bin edges must be unique") /\
  score_loop (Recency_column (rfm_metrics tied_recency)) (range_down 5 1)
    = Ok (Some [Some 1; Some 1; Some 2; Some 2]) /\
  score_loop (Frequency_column (rfm_metrics tied_recency)) (range_down 5 1)
    = Ok (Some [Some 1; Some 2; Some 4; Some 5]) /\
  score_loop (Monetary_column (rfm_metrics tied_recency)) (range_down 5 1)
    = Ok (Some [Some 1; Some 2; Some 4; Some 5]).
Proof. repeat split; vm_compute; reflexivity. Qed.

(** C2: on a cohort in which every customer has one invoice, binning
    the frequency fails at 5, 4, 3 and 2 bins, the column F_Score is never
    assigned, and line 146 raises KeyError. *)
Theorem exhausted_retry_loop_raises :
  let frequency := Frequency_column (rfm_metrics single_purchases) in
  let mismatch :=
    Raise (ValueError
             "Bin labels must be one fewer than the number of bin edges") in
  r_score_step (rfm_metrics single_purchases)
    = Ok [Some 1; Some 2; Some 3; Some 4; Some 5] /\
  frequency = map inject_Z [1; 1; 1; 1; 1] /\
  qcut frequency 5 (range_labels 5) dup_drop = mismatch /\
  qcut frequency 4 (range_labels 4) dup_drop = mismatch /\
  qcut frequency 3 (range_labels 3) dup_drop = mismatch /\
  qcut frequency 2 (range_labels 2) dup_drop = mismatch /\
  score_loop frequency (range_down 5 1) = Ok None /\
  rfm_analysis single_purchases = Raise (KeyError "F_Score").
Proof. repeat split; vm_compute; reflexivity. Qed.

(** ** Empty tables *)

Lemma filtered_data_offered_nonempty (data : DataFrame) (sel : string) :
  data <> [] -> In sel (selectbox_options data) ->
  filtered_data data sel <> [].
Proof.
  intros Hne Hsel. unfold filtered_data.
  destruct (String.eqb sel "All") eqn:E; [exact Hne|].
  destruct Hsel as [Hall|Hsel].
  - subst sel. discriminate E.
  - apply unique_strings_incl, in_map_iff in Hsel.
    destruct Hsel as [r [Hc Hr]].
    assert (Hin : In r (filter (fun r => String.eqb (Country r) sel) data)).
    { apply filter_In. split; [exact Hr|]. now apply String.eqb_eq. }
    intros Hnil. rewrite Hnil in Hin. destruct Hin.
Qed.

(** C3: a file of returns only loads to an empty table; on it the
    recency binning of line 127 raises ValueError, nothing catches it, and
    the RFM tab returns no result. *)
Theorem empty_table_raises :
  let table := filtered_data (load_and_clean_data returns_only_csv) "All" in
  table = [] /\
  rfm_metrics table = [] /\
  r_score_step (rfm_metrics table)
  = Raise (ValueError "Bin edges must be unique") /\
  rfm_analysis table = Raise (ValueError "Bin edges must be unique") /\
  ~ (exists rows, rfm_analysis table = Ok rows).
Proof.
  repeat split; try reflexivity.
  intros [rows H]. discriminate H.
Qed.

(** ** Rankings *)

Lemma StronglySorted_app_inv {A : Type} (R : A -> A -> Prop) (l1 l2 : list A) :
  StronglySorted R (l1 ++ l2) ->
  StronglySorted R l1 /\ forall a b, In a l1 -> In b l2 -> R a b.
Proof.
  induction l1 as [|x l1 IH]; simpl; intros H.
  - split; [constructor|easy].
  - apply StronglySorted_inv in H. destruct H as [Hs Hall].
    destruct (IH Hs) as [Hs1 Hcross]. split.
    + constructor; [exact Hs1|].
      rewrite Forall_forall in *. intros y Hy. apply Hall.
      apply in_or_app. now left.
    + intros a b [<-|Ha] Hb; [|auto].
      rewrite Forall_forall in Hall. apply Hall. apply in_or_app. now right.
Qed.

Lemma insert_descending_perm (e : Entry) (l : list Entry) :
  Permutation (e :: l) (insert_descending e l).
Proof.
  induction l as [|x l IH]; simpl; [reflexivity|].
  destruct (Qle_bool (snd x) (snd e)); [reflexivity|].
  rewrite perm_swap. now constructor.
Qed.

Lemma insert_descending_sorted (e : Entry) (l : list Entry) :
  descending l -> descending (insert_descending e l).
Proof.
  unfold descending. induction 1 as [|x l Hs IH Hall]; simpl.
  - repeat constructor.
  - destruct (Qle_bool (snd x) (snd e)) eqn:E.
    + apply Qle_bool_iff in E. constructor; [now constructor|].
      constructor; [exact E|].
      rewrite Forall_forall in *. intros y Hy.
      apply Qle_trans with (snd x); auto.
    + apply Qle_bool_false in E. constructor; [exact IH|].
      rewrite Forall_forall in *. intros y Hy.
      apply (Permutation_in _ (Permutation_sym (insert_descending_perm e l)))
        in Hy.
      destruct Hy as [<-|Hy]; [now apply Qlt_le_weak|auto].
Qed.

(** Every frame has a sorted frame, so [top_n] relates every input to
    some result. *)
Lemma top_n_returns (input : list Entry) (n : nat) :
  exists output, top_n input n output.
Proof.
  exists (head n (stable_sort_descending input)),
         (stable_sort_descending input).
  split; [|reflexivity]. split.
  - induction input as [|e input IH]; simpl; [constructor|].
    rewrite <- insert_descending_perm. now constructor.
  - induction input as [|e input IH]; simpl; [constructor|].
    now apply insert_descending_sorted.
Qed.

(** C9, as the code has it: the result holds the first n rows (all
    rows when there are fewer) of the frame in descending order of value:
    it is in descending order, and no row left out has a value above
    one that is kept.  The order of rows with equal values is not
    fixed. *)
Theorem top_n_largest_descending (input output : list Entry) (n : nat) :
  top_n input n output ->
  length output = Nat.min n (length input) /\
  descending output /\
  exists rest,
    Permutation input (output ++ rest) /\
    forall a b, In a output -> In b rest -> (snd b <= snd a)%Q.
Proof.
  intros [sorted [[Hperm Hdesc] ->]]. unfold head.
  rewrite <- (firstn_skipn n sorted) in Hdesc.
  apply StronglySorted_app_inv in Hdesc. destruct Hdesc as [Hd Hcross].
  split; [|split].
  - rewrite length_firstn. now rewrite (Permutation_length Hperm).
  - exact Hd.
  - exists (skipn n sorted). split.
    + now rewrite firstn_skipn.
    + intros a b Ha Hb. now apply Hcross.
Qed.

Lemma tied_sales_partitioned_sorted :
  sort_values_descending tied_sales tied_sales_partitioned.
Proof.
  split.
  - unfold tied_sales, tied_sales_partitioned.
    apply Permutation_app_head, Permutation_app_tail, Permutation_rev.
  - unfold descending. repeat constructor; apply Qle_refl.
Qed.

Lemma tied_sales_top5_admissible : top_n tied_sales 5 tied_sales_top5.
Proof.
  exists tied_sales_partitioned.
  split; [apply tied_sales_partitioned_sorted|reflexivity].
Qed.

Lemma top_n_largest_descending_witness :
  length tied_sales_top5 = Nat.min 5 (length tied_sales) /\
  descending tied_sales_top5 /\
  exists rest,
    Permutation tied_sales (tied_sales_top5 ++ rest) /\
    forall a b, In a tied_sales_top5 -> In b rest -> (snd b <= snd a)%Q.
Proof.
  apply (top_n_largest_descending tied_sales tied_sales_top5 5).
  exists tied_sales_partitioned. split; [|reflexivity]. split.
  - unfold tied_sales, tied_sales_partitioned.
    apply Permutation_app_head, Permutation_app_tail, Permutation_rev.
  - unfold descending. repeat constructor; apply Qle_refl.
Defined.

Lemma Before_nil {A : Type} (a b : A) : ~ Before a b [].
Proof. intros [l1 [l2 [l3 E]]]. destruct l1; discriminate E. Qed.

Lemma Before_cons_inv {A : Type} (a b x : A) (l : list A) :
  Before a b (x :: l) -> (x = a /\ In b l) \/ Before a b l.
Proof.
  intros [l1 [l2 [l3 E]]]. destruct l1 as [|y l1]; simpl in E.
  - injection E as -> ->. left. split; [reflexivity|].
    apply in_or_app. right. now left.
  - injection E as _ ->. right. exists l1, l2, l3. reflexivity.
Qed.

(** C9 as stated fails: eighteen products with equal sales, sorted by
    an unstable quicksort whose partition exchanged the rows around the
    pivot; TRAY comes before TIN in the five rows shown and after it in
    the input. *)
Lemma top_n_stability_counterexample :
  top_n tied_sales 5 tied_sales_top5 /\
  ~ ties_in_input_order tied_sales tied_sales_top5.
Proof.
  split; [apply tied_sales_top5_admissible|].
  intros H.
  assert (Hb : Before (product "TRAY") (product "TIN") tied_sales).
  { apply H; [reflexivity|].
    exists [product "APRON"; product "BAG"], [], [product "SPOON"].
    reflexivity. }
  unfold tied_sales, leading_products, middle_products, trailing_products in Hb.
  simpl in Hb.
  repeat (apply Before_cons_inv in Hb;
          destruct Hb as [[Hx Hin]|Hb];
          [ try discriminate Hx; simpl in Hin; intuition discriminate | ]).
  exact (Before_nil _ _ Hb).
Qed.

(** ** Grouping: keys and partition *)

Section GroupByFacts.

Context {K A : Type}.
Variables (ltb eqb : K -> K -> bool).
Variable key : A -> option K.

Hypothesis eqb_eq : forall a b, eqb a b = true <-> a = b.
Hypothesis ltb_irrefl : forall a, ltb a a = false.
Hypothesis ltb_trans :
  forall a b c, ltb a b = true -> ltb b c = true -> ltb a c = true.
Hypothesis ltb_total :
  forall a b, ltb a b = false -> eqb a b = false -> ltb b a = true.

Lemma insert_group_key_In (c k : K) (keys : list K) :
  In k (insert_group_key ltb eqb c keys) <-> k = c \/ In k keys.
Proof.
  induction keys as [|a keys IH]; simpl.
  - intuition.
  - destruct (ltb c a); simpl; [intuition|].
    destruct (eqb c a) eqn:E; simpl.
    + apply eqb_eq in E. subst. intuition.
    + rewrite IH. intuition.
Qed.

Lemma groupby_keys_In (t : list A) (c : K) :
  In c (groupby_keys ltb eqb key t) <-> exists r, In r t /\ key r = Some c.
Proof.
  induction t as [|a t IH]; simpl.
  - split; [easy|]. intros [r [[] _]].
  - destruct (key a) as [c'|] eqn:E.
    + rewrite insert_group_key_In, IH. split.
      * intros [->|[r [Hr Hc]]]; [exists a; auto|exists r; auto].
      * intros [r [[<-|Hr] Hc]].
        -- left. congruence.
        -- right. exists r. auto.
    + rewrite IH. split.
      * intros [r [Hr Hc]]. exists r; auto.
      * intros [r [[<-|Hr] Hc]]; [congruence|exists r; auto].
Qed.

Lemma insert_group_key_sorted (c : K) (keys : list K) :
  StronglySorted (fun a b => ltb a b = true) keys ->
  StronglySorted (fun a b => ltb a b = true) (insert_group_key ltb eqb c keys).
Proof.
  induction 1 as [|k keys Hs IH Hall]; simpl.
  - repeat constructor.
  - destruct (ltb c k) eqn:E1.
    + constructor; [now constructor|]. constructor; [exact E1|].
      rewrite Forall_forall in *. intros y Hy. eauto.
    + destruct (eqb c k) eqn:E2; [now constructor|].
      constructor; [exact IH|].
      rewrite Forall_forall in *. intros y Hy.
      apply insert_group_key_In in Hy. destruct Hy as [->|Hy]; auto.
Qed.

Lemma groupby_keys_sorted (t : list A) :
  StronglySorted (fun a b => ltb a b = true) (groupby_keys ltb eqb key t).
Proof.
  induction t as [|a t IH]; simpl; [constructor|].
  destruct (key a); [now apply insert_group_key_sorted|exact IH].
Qed.

Lemma sorted_keys_NoDup (keys : list K) :
  StronglySorted (fun a b => ltb a b = true) keys -> NoDup keys.
Proof.
  induction 1 as [|k keys Hs IH Hall]; constructor; [|exact IH].
  intros Hin. rewrite Forall_forall in Hall.
  specialize (Hall k Hin). rewrite ltb_irrefl in Hall. discriminate.
Qed.

Lemma groupby_keys_NoDup (t : list A) : NoDup (groupby_keys ltb eqb key t).
Proof. apply sorted_keys_NoDup, groupby_keys_sorted. Qed.

Lemma in_group_true (c : K) (r : A) :
  in_group eqb key c r = true <-> key r = Some c.
Proof.
  unfold in_group. destruct (key r) as [c'|].
  - rewrite eqb_eq. split; congruence.
  - split; discriminate.
Qed.

(** Every group of [groupby] has at least one row. *)
Lemma get_group_nonempty (t : list A) (c : K) :
  In c (groupby_keys ltb eqb key t) -> get_group eqb key t c <> [].
Proof.
  intros Hc. apply groupby_keys_In in Hc. destruct Hc as [r [Hr Hk]].
  assert (Hin : In r (get_group eqb key t c)).
  { apply filter_In. split; [exact Hr|]. now apply in_group_true. }
  intros E. rewrite E in Hin. destruct Hin.
Qed.

Lemma filter_disjoint_union (p q : A -> bool) (t : list A) :
  (forall r, p r = true -> q r = false) ->
  Permutation (filter (fun r => p r || q r)%bool t) (filter p t ++ filter q t).
Proof.
  intros Hpq. induction t as [|r t IH]; simpl; [constructor|].
  destruct (p r) eqn:Ep; simpl.
  - rewrite (Hpq r Ep). now constructor.
  - destruct (q r); [|exact IH].
    rewrite <- Permutation_middle. now constructor.
Qed.

(** The groups of distinct keys, one after the other, are a
    rearrangement of the rows that have one of these keys. *)
Lemma groups_partition (keys : list K) (t : list A) :
  NoDup keys ->
  Permutation (flat_map (get_group eqb key t) keys)
              (filter (fun r => existsb (fun c => in_group eqb key c r) keys) t).
Proof.
  induction 1 as [|c keys Hc Hnd IH]; simpl.
  - induction t; simpl; auto.
  - rewrite filter_disjoint_union.
    + apply Permutation_app_head. exact IH.
    + intros r Hr. apply in_group_true in Hr.
      apply not_true_is_false. intros Hex. apply existsb_exists in Hex.
      destruct Hex as [c' [Hc' Hg]]. apply in_group_true in Hg.
      apply Hc. congruence.
Qed.

(** The groups of [groupby] are a rearrangement of the rows that have
    a key. *)
Lemma groupby_keys_partition (t : list A) :
  Permutation
    (flat_map (get_group eqb key t) (groupby_keys ltb eqb key t))
    (filter (fun r => match key r with Some _ => true | None => false end) t).
Proof.
  rewrite groups_partition by apply groupby_keys_NoDup.
  erewrite filter_ext_in; [reflexivity|].
  intros r Hr. simpl. destruct (key r) as [c|] eqn:E.
  - apply existsb_exists. exists c. split.
    + apply groupby_keys_In. eauto.
    + now apply in_group_true.
  - apply not_true_is_false. intros Hex. apply existsb_exists in Hex.
    destruct Hex as [c [_ Hg]]. apply in_group_true in Hg. congruence.
Qed.

Lemma groupby_partition (t : list A) :
  Permutation (concat (map snd (groupby ltb eqb key t)))
              (filter (fun r => match key r with Some _ => true | None => false end) t).
Proof.
  unfold groupby. rewrite map_map. simpl.
  rewrite <- flat_map_concat_map. apply groupby_keys_partition.
Qed.

Lemma groupby_fst (t : list A) :
  map fst (groupby ltb eqb key t) = groupby_keys ltb eqb key t.
Proof. unfold groupby. rewrite map_map. simpl. apply map_id. Qed.

Lemma groupby_In (t : list A) (c : K) (rows : list A) :
  In (c, rows) (groupby ltb eqb key t) ->
  rows = get_group eqb key t c /\ rows <> [] /\
  exists r, In r t /\ key r = Some c.
Proof.
  unfold groupby. intros H. apply in_map_iff in H.
  destruct H as [c' [E Hc]]. injection E as -> <-.
  split; [reflexivity|]. split; [now apply get_group_nonempty|].
  now apply groupby_keys_In.
Qed.

End GroupByFacts.

(** ** Orders on the keys *)

Lemma string_ltb_Lt (a b : string) :
  String.ltb a b = true <-> OrderedTypeEx.String_as_OT.lt a b.
Proof.
  rewrite <- OrderedTypeEx.String_as_OT.cmp_lt.
  unfold String.ltb, OrderedTypeEx.String_as_OT.cmp.
  destruct (String.compare a b); split; congruence.
Qed.

Lemma string_ltb_irrefl (a : string) : String.ltb a a = false.
Proof.
  apply not_true_is_false. intros H. apply string_ltb_Lt in H.
  apply OrderedTypeEx.String_as_OT.lt_not_eq in H. now apply H.
Qed.

Lemma string_ltb_trans (a b c : string) :
  String.ltb a b = true -> String.ltb b c = true -> String.ltb a c = true.
Proof.
  rewrite !string_ltb_Lt. apply OrderedTypeEx.String_as_OT.lt_trans.
Qed.

Lemma string_ltb_total (a b : string) :
  String.ltb a b = false -> String.eqb a b = false -> String.ltb b a = true.
Proof.
  unfold String.ltb. rewrite (String.compare_antisym b a).
  destruct (String.compare a b) eqn:E; simpl; try congruence.
  apply String.compare_eq_iff in E. subst. rewrite String.eqb_refl.
  congruence.
Qed.

Lemma Z_ltb_trans (a b c : Z) :
  Z.ltb a b = true -> Z.ltb b c = true -> Z.ltb a c = true.
Proof. rewrite !Z.ltb_lt. lia. Qed.

Lemma Z_ltb_total (a b : Z) :
  Z.ltb a b = false -> Z.eqb a b = false -> Z.ltb b a = true.
Proof. rewrite Z.ltb_lt, Z.ltb_ge, Z.eqb_neq. lia. Qed.

(** The customer groups of the RFM tab are the groups of [groupby]. *)
Lemma group_keys_groupby (t : DataFrame) :
  group_keys t = groupby_keys Z.ltb Z.eqb CustomerID t.
Proof. reflexivity. Qed.

Lemma group_rows_get_group (t : DataFrame) (c : Z) :
  group_rows t c = get_group Z.eqb CustomerID t c.
Proof. reflexivity. Qed.

(** ** Sums *)

Lemma fold_left_Zplus (l : list Z) (a : Z) :
  fold_left Z.add l a = a + series_sum_Z l.
Proof.
  unfold series_sum_Z. revert a. induction l as [|x l IH]; intros a; simpl.
  - lia.
  - rewrite (IH (a + x)), (IH x). lia.
Qed.

Lemma series_sum_Z_cons (x : Z) (l : list Z) :
  series_sum_Z (x :: l) = x + series_sum_Z l.
Proof. unfold series_sum_Z at 1. simpl. rewrite fold_left_Zplus. lia. Qed.

Lemma series_sum_Z_app (l1 l2 : list Z) :
  series_sum_Z (l1 ++ l2) = series_sum_Z l1 + series_sum_Z l2.
Proof.
  induction l1 as [|x l1 IH]; simpl; [reflexivity|].
  rewrite !series_sum_Z_cons, IH. lia.
Qed.

(** A sum of integers that are all at least 1 is at least their number. *)
Lemma series_sum_Z_lower (l : list Z) :
  (forall x, In x l -> 1 <= x) -> Z.of_nat (length l) <= series_sum_Z l.
Proof.
  induction l as [|x l IH]; intros H; [reflexivity|].
  rewrite series_sum_Z_cons. specialize (H x (or_introl eq_refl)) as Hx.
  assert (Z.of_nat (length l) <= series_sum_Z l).
  { apply IH. intros y Hy. apply H. now right. }
  simpl length. lia.
Qed.

(** ** Distinct values *)

Lemma unique_ids_spec (seen l : list Z) :
  NoDup (unique_ids seen l) /\
  forall c, In c (unique_ids seen l) <-> In c l /\ ~ In c seen.
Proof.
  revert seen. induction l as [|a l IH]; intros seen; simpl.
  - split; [constructor|]. intuition.
  - destruct (existsb (Z.eqb a) seen) eqn:E.
    + destruct (IH seen) as [Hnd Hin]. split; [exact Hnd|].
      apply existsb_exists in E. destruct E as [x [Hx Hax]].
      apply Z.eqb_eq in Hax. subst x.
      intros c. rewrite Hin. intuition. subst. contradiction.
    + destruct (IH (a :: seen)) as [Hnd Hin].
      assert (Ha : ~ In a seen).
      { intros Ha. apply not_true_iff_false in E. apply E.
        apply existsb_exists. exists a. split; [exact Ha|apply Z.eqb_refl]. }
      split.
      * constructor; [|exact Hnd]. rewrite Hin. simpl. intuition.
      * intros c. simpl. rewrite Hin. simpl.
        destruct (Z.eq_dec a c) as [->|Hne]; intuition.
Qed.

Lemma unique_strings_spec (seen l : list string) :
  NoDup (unique_strings seen l) /\
  forall c, In c (unique_strings seen l) <-> In c l /\ ~ In c seen.
Proof.
  revert seen. induction l as [|a l IH]; intros seen; simpl.
  - split; [constructor|]. intuition.
  - destruct (existsb (String.eqb a) seen) eqn:E.
    + destruct (IH seen) as [Hnd Hin]. split; [exact Hnd|].
      apply existsb_exists in E. destruct E as [x [Hx Hax]].
      apply String.eqb_eq in Hax. subst x.
      intros c. rewrite Hin. intuition. subst. contradiction.
    + destruct (IH (a :: seen)) as [Hnd Hin].
      assert (Ha : ~ In a seen).
      { intros Ha. apply not_true_iff_false in E. apply E.
        apply existsb_exists. exists a. split; [exact Ha|apply String.eqb_refl]. }
      split.
      * constructor; [|exact Hnd]. rewrite Hin. simpl. intuition.
      * intros c. simpl. rewrite Hin. simpl.
        destruct (string_dec a c) as [->|Hne]; intuition.
Qed.

Lemma unique_strings_length (seen l : list string) :
  (length (unique_strings seen l) <= length l)%nat.
Proof.
  revert seen. induction l as [|a l IH]; intros seen; simpl; [lia|].
  destruct (existsb (String.eqb a) seen); simpl.
  - specialize (IH seen). lia.
  - specialize (IH (a :: seen)). lia.
Qed.

Lemma dropna_In {B : Type} (l : list (option B)) (b : B) :
  In b (dropna l) <-> In (Some b) l.
Proof.
  unfold dropna. rewrite in_flat_map. split.
  - intros [[x|] [Hx Hb]]; [|destruct Hb].
    destruct Hb as [<-|[]]. exact Hx.
  - intros H. exists (Some b). split; [exact H|now left].
Qed.

(** ** The rows of rfm *)

Lemma rfm_metrics_columns (t : DataFrame) :
  map m_CustomerID (rfm_metrics t) = group_keys t /\
  map Frequency (rfm_metrics t)
    = map (fun c => nunique (map InvoiceNo (group_rows t c))) (group_keys t) /\
  map Monetary (rfm_metrics t)
    = map (fun c => series_sum (map TotalSales (group_rows t c))) (group_keys t).
Proof.
  unfold rfm_metrics. destruct (reference_date t) as [ref|] eqn:Href.
  - assert (Hne : forall c, In c (group_keys t) -> group_rows t c <> []).
    { intros c Hc. rewrite group_rows_get_group.
      apply (get_group_nonempty Z.ltb Z.eqb CustomerID Z.eqb_eq).
      now rewrite <- group_keys_groupby. }
    induction (group_keys t) as [|c keys IH]; simpl; [auto|].
    destruct (group_rows t c) as [|r rs] eqn:G.
    + exfalso. apply (Hne c); [now left|exact G].
    + simpl. destruct IH as [I1 [I2 I3]].
      { intros c' Hc'. apply Hne. now right. }
      rewrite I1, I2, I3. auto.
  - destruct t; [|discriminate Href]. auto.
Qed.

Lemma group_keys_sorted (t : DataFrame) : StronglySorted Z.lt (group_keys t).
Proof.
  rewrite group_keys_groupby.
  pose proof (groupby_keys_sorted Z.ltb Z.eqb CustomerID Z.eqb_eq
                Z_ltb_trans Z_ltb_total t) as H.
  induction H as [|k keys Hs IH Hall]; constructor; [exact IH|].
  rewrite Forall_forall in *. intros y Hy. apply Z.ltb_lt. auto.
Qed.

Lemma rfm_customer_ids (t : DataFrame) :
  NoDup (map m_CustomerID (rfm_metrics t)) /\
  forall c, In c (map m_CustomerID (rfm_metrics t)) <->
            exists r, In r t /\ CustomerID r = Some c.
Proof.
  destruct (rfm_metrics_columns t) as [-> _]. split.
  - rewrite group_keys_groupby.
    apply (groupby_keys_NoDup Z.ltb Z.eqb CustomerID Z.eqb_eq
             Z.ltb_irrefl Z_ltb_trans Z_ltb_total).
  - intros c. apply group_keys_In.
Qed.

(** X1: rfm has one row for each customer id that occurs in the table,
    and no other row; the rows come in strictly ascending order of
    customer id, so no id occurs twice. *)
Theorem rfm_one_row_per_customer (t : DataFrame) :
  StronglySorted Z.lt (map m_CustomerID (rfm_metrics t)) /\
  NoDup (map m_CustomerID (rfm_metrics t)) /\
  forall c, In c (map m_CustomerID (rfm_metrics t)) <->
            exists r, In r t /\ CustomerID r = Some c.
Proof.
  destruct (rfm_customer_ids t) as [Hnd Hin].
  split; [|split; [exact Hnd|exact Hin]].
  destruct (rfm_metrics_columns t) as [-> _]. apply group_keys_sorted.
Qed.

(** X2: the Frequency of a customer is at least 1 and at most the number
    of the customer's rows. *)
Theorem frequency_bounds (t : DataFrame) (row : Metrics) :
  In row (rfm_metrics t) ->
  1 <= Frequency row
    <= Z.of_nat (length (group_rows t (m_CustomerID row))).
Proof.
  intros H. apply rfm_metrics_In in H.
  destruct H as [ref [r [rs [_ [_ [G ->]]]]]]. simpl. rewrite G.
  unfold nunique. split.
  - cbn [map unique_strings existsb length]. lia.
  - pose proof (unique_strings_length [] (map InvoiceNo (r :: rs))) as L.
    rewrite length_map in L. cbn [map] in L. lia.
Qed.

Lemma frequency_bounds_witness :
  1 <= Frequency (mkMetrics 3 15 3 (200 # 1))
    <= Z.of_nat (length (group_rows three_customers 3)).
Proof.
  apply (frequency_bounds three_customers (mkMetrics 3 15 3 (200 # 1))).
  vm_compute. auto.
Defined.

(** X4: the number of unique customers shown by the Data Exploration tab
    is the number of rows of rfm. *)
Theorem unique_customers_is_rfm_length (t : DataFrame) :
  unique_customers t = Z.of_nat (length (rfm_metrics t)).
Proof.
  unfold unique_customers, nunique_ids. f_equal.
  rewrite <- (length_map m_CustomerID (rfm_metrics t)).
  destruct (rfm_customer_ids t) as [Hnd Hin].
  destruct (unique_ids_spec [] (dropna (map CustomerID t))) as [Hnd' Hin'].
  apply Permutation_length, NoDup_Permutation; auto.
  intros c. rewrite Hin', Hin, dropna_In, in_map_iff. simpl.
  split.
  - intros [[r [Hc Hr]] _]. eauto.
  - intros [r [Hr Hc]]. split; [eauto|tauto].
Qed.

(** ** Scores of the retry loops *)

Lemma range_labels_length (k : nat) : length (range_labels k) = k.
Proof. unfold range_labels. now rewrite length_map, length_seq. Qed.

Lemma take_range_label (k id : nat) :
  (1 <= id <= k)%nat -> take_label (range_labels k) id = Some (Z.of_nat id).
Proof.
  intros H. destruct id as [|i]; [lia|]. simpl. unfold range_labels.
  rewrite nth_error_map.
  rewrite (nth_error_nth' (seq 1 k) 0%nat) by (rewrite length_seq; lia).
  rewrite seq_nth by lia. reflexivity.
Qed.

(** What a successful [qcut] of a retry loop returned: no edge was
    dropped. *)
Lemma qcut_drop_Ok (x : list Q) (k : nat) (col : list (option Z)) :
  (2 <= k)%nat ->
  qcut x k (range_labels k) dup_drop = Ok col ->
  col = map (fun v => take_label (range_labels k)
                        (bin_id (quantile_edges x k) v)) x /\
  (k + 1 <= length (pd_unique (quantile_edges x k)))%nat.
Proof.
  intros Hk. unfold qcut, bins_to_cuts.
  rewrite quantile_edges_length, range_labels_length.
  destruct (Nat.ltb (length (pd_unique (quantile_edges x k))) (k + 1)) eqn:E.
  - replace (negb (Nat.eqb (k + 1) 2)) with true
      by (symmetry; apply negb_true_iff, Nat.eqb_neq; lia).
    cbn [andb bind]. apply Nat.ltb_lt in E.
    destruct (negb (all_distinct (range_labels k))); [discriminate|].
    replace (Nat.eqb k (length (pd_unique (quantile_edges x k)) - 1))
      with false by (symmetry; apply Nat.eqb_neq; lia).
    discriminate.
  - cbn [andb bind]. apply Nat.ltb_ge in E.
    destruct (negb (all_distinct (range_labels k))); [discriminate|].
    rewrite quantile_edges_length.
    destruct (negb (Nat.eqb k (k + 1 - 1))); [discriminate|].
    intros H. injection H as <-. auto.
Qed.

Lemma In_range_5_to_2 (k : nat) :
  In k (range_down 5 1) -> (2 <= k <= 5)%nat.
Proof. simpl. intuition lia. Qed.

(** A column returned by a retry loop is the labelling of the values by
    the bins of some bin count between 2 and 5. *)
Lemma score_loop_Some (x : list Q) (col : list (option Z)) :
  score_loop x (range_down 5 1) = Ok (Some col) ->
  exists k, (2 <= k <= 5)%nat /\
    col = map (fun v => take_label (range_labels k)
                          (bin_id (quantile_edges x k) v)) x /\
    (k + 1 <= length (pd_unique (quantile_edges x k)))%nat.
Proof.
  intros H.
  destruct (score_loop_first_success x (range_down 5 1))
    as [[tried [k [rest [col' [Hr [_ [Hq Hs]]]]]]]|[_ Hs]];
    rewrite Hs in H; [|discriminate].
  injection H as ->. exists k.
  assert (Hk : (2 <= k <= 5)%nat).
  { apply In_range_5_to_2. rewrite Hr. apply in_or_app. right. now left. }
  split; [exact Hk|]. apply qcut_drop_Ok; [lia|exact Hq].
Qed.

(** The labels 1 .. k on the bins of the quantiles of a column. *)
Lemma direct_labels_monotone (x : list Q) (k : nat) (v w : Q) :
  (1 <= k)%nat -> In v x -> In w x -> (v <= w)%Q ->
  let score := fun u => take_label (range_labels k)
                          (bin_id (quantile_edges x k) u) in
  exists a b, score v = Some a /\ score w = Some b /\
              1 <= a <= b /\ b <= Z.of_nat k.
Proof.
  intros Hk Hv Hw Hvw score. subst score.
  set (bins := quantile_edges x k).
  assert (L : length bins = (k + 1)%nat)
    by (subst bins; apply quantile_edges_length).
  assert (Hlen : (2 <= length bins)%nat) by lia.
  assert (Hrange : forall u, In u x ->
            (nth 0 bins 0 <= u <= nth (length bins - 1) bins 0)%Q).
  { intros u Hu. apply quantile_edges_bounds; [lia|exact Hu]. }
  destruct (bin_id_in_range bins v Hlen (Hrange v Hv)) as [Rv _].
  destruct (bin_id_in_range bins w Hlen (Hrange w Hw)) as [Rw _].
  pose proof (bin_id_monotone bins v w Hlen (Hrange v Hv) (Hrange w Hw) Hvw)
    as Hmono.
  rewrite L in Rv, Rw.
  exists (Z.of_nat (bin_id bins v)), (Z.of_nat (bin_id bins w)).
  rewrite !take_range_label by lia. repeat split; lia.
Qed.

(** X5: in a column of scores returned by a retry loop (frequency or
    monetary), every value has a score between 1 and 5, and a smaller
    value never has a higher score. *)
Theorem loop_score_monotone
    (x : list Q) (col : list (option Z)) (v w : Q) (sv sw : option Z) :
  score_loop x (range_down 5 1) = Ok (Some col) ->
  In (v, sv) (combine x col) -> In (w, sw) (combine x col) ->
  (v <= w)%Q ->
  exists a b, sv = Some a /\ sw = Some b /\ 1 <= a <= b /\ b <= 5.
Proof.
  intros H Hv Hw Hvw. apply score_loop_Some in H.
  destruct H as [k [Hk [-> _]]].
  apply In_combine_map in Hv, Hw.
  destruct Hv as [Hv ->], Hw as [Hw ->].
  destruct (direct_labels_monotone x k v w) as [a [b [Ha [Hb Hab]]]];
    try assumption; try lia.
  exists a, b. repeat split; try assumption; lia.
Qed.

Lemma loop_score_monotone_witness :
  exists a b, Some 1 = Some a /\ Some 3 = Some b /\ 1 <= a <= b /\ b <= 5.
Proof.
  apply (loop_score_monotone
           (Frequency_column (rfm_metrics three_customers))
           [Some 1; Some 3; Some 5] 1%Q 2%Q).
  - vm_compute. reflexivity.
  - vm_compute. auto.
  - vm_compute. auto.
  - vm_compute. discriminate.
Defined.

(** ** Every customer is scored *)

Lemma assemble_rows (rfm : list Metrics) (R F M : list (option Z)) :
  length R = length rfm -> length F = length rfm -> length M = length rfm ->
  map metrics (assemble rfm R F M) = rfm /\
  forall row, In row (assemble rfm R F M) ->
    In (metrics row, R_Score row) (combine rfm R) /\
    In (metrics row, F_Score row) (combine rfm F) /\
    In (metrics row, M_Score row) (combine rfm M) /\
    row = composite (metrics row) (R_Score row) (F_Score row) (M_Score row).
Proof.
  revert R F M. induction rfm as [|m rfm IH]; intros R F M HR HF HM.
  - simpl. split; [reflexivity|easy].
  - destruct R as [|r R]; [discriminate|]. destruct F as [|f F]; [discriminate|].
    destruct M as [|s M]; [discriminate|]. simpl in *.
    destruct (IH R F M) as [I1 I2]; try lia.
    split; [now rewrite I1|].
    intros row [<-|Hrow]; simpl; [auto|].
    destruct (I2 row Hrow) as [H1 [H2 [H3 H4]]]. auto.
Qed.

(** The recency label of one customer. *)
Lemma recency_label_present (rfm : list Metrics) (a : Metrics) :
  In a rfm ->
  exists r, take_label [5; 4; 3; 2; 1]
              (bin_id (quantile_edges (Recency_column rfm) 5)
                      (inject_Z (Recency a))) = Some r /\
            1 <= r <= 5.
Proof.
  intros Ha.
  set (bins := quantile_edges (Recency_column rfm) 5).
  assert (L : length bins = 6%nat) by (subst bins; apply quantile_edges_length).
  assert (Hlen : (2 <= length bins)%nat) by lia.
  assert (Hr : (nth 0 bins 0 <= inject_Z (Recency a)
                <= nth (length bins - 1) bins 0)%Q).
  { apply quantile_edges_bounds; [lia|]. unfold Recency_column.
    apply (in_map (fun m => inject_Z (Recency m))). exact Ha. }
  destruct (bin_id_in_range bins _ Hlen Hr) as [Ra _]. rewrite L in Ra.
  exists (6 - Z.of_nat (bin_id bins (inject_Z (Recency a)))).
  rewrite take_reversed_label by lia. split; [reflexivity|lia].
Qed.

(** The three score columns of a table that the pipeline returned, read
    row by row. *)
Lemma rfm_analysis_rows (t : DataFrame) (rows : list RFMRow) :
  rfm_analysis t = Ok rows ->
  map metrics rows = rfm_metrics t /\
  forall row, In row rows ->
    In (metrics row) (rfm_metrics t) /\
    row = composite (metrics row) (R_Score row) (F_Score row) (M_Score row) /\
    exists r f m,
      R_Score row = Some r /\ F_Score row = Some f /\ M_Score row = Some m /\
      1 <= r <= 5 /\ 1 <= f <= 5 /\ 1 <= m <= 5.
Proof.
  intros H. apply rfm_analysis_Ok in H.
  destruct H as [R [F [M [HR [HF [HM ->]]]]]].
  apply r_score_step_Ok in HR.
  apply score_loop_Some in HF, HM.
  destruct HF as [kf [Hkf [HF _]]], HM as [km [Hkm [HM _]]].
  assert (LR : length R = length (rfm_metrics t)).
  { subst R. unfold Recency_column. now rewrite !length_map. }
  assert (LF : length F = length (rfm_metrics t)).
  { subst F. unfold Frequency_column. now rewrite !length_map. }
  assert (LM : length M = length (rfm_metrics t)).
  { subst M. unfold Monetary_column. now rewrite !length_map. }
  destruct (assemble_rows (rfm_metrics t) R F M LR LF LM) as [Hmap Hrows].
  split; [exact Hmap|]. intros row Hrow.
  destruct (Hrows row Hrow) as [H1 [H2 [H3 H4]]].
  assert (Hin : In (metrics row) (rfm_metrics t)).
  { apply in_combine_l in H1. exact H1. }
  split; [exact Hin|]. split; [exact H4|].
  rewrite HR in H1. apply In_combine_scores in H1. destruct H1 as [_ H1].
  rewrite HF in H2. unfold Frequency_column in H2. rewrite map_map in H2.
  apply (In_combine_map
           (fun m => take_label (range_labels kf)
                       (bin_id (quantile_edges
                                  (map (fun m => inject_Z (Frequency m))
                                       (rfm_metrics t)) kf)
                               (inject_Z (Frequency m))))) in H2.
  destruct H2 as [_ H2].
  rewrite HM in H3. unfold Monetary_column in H3. rewrite map_map in H3.
  apply (In_combine_map
           (fun m => take_label (range_labels km)
                       (bin_id (quantile_edges
                                  (map Monetary (rfm_metrics t)) km)
                               (Monetary m)))) in H3.
  destruct H3 as [_ H3].
  destruct (recency_label_present (rfm_metrics t) (metrics row) Hin)
    as [r [Er Hr]].
  destruct (direct_labels_monotone
              (map (fun m => inject_Z (Frequency m)) (rfm_metrics t)) kf
              (inject_Z (Frequency (metrics row)))
              (inject_Z (Frequency (metrics row))))
    as [f [f2 [Ef [_ [Hf1 Hf2]]]]];
    [lia| apply (in_map (fun m => inject_Z (Frequency m))); exact Hin
        | apply (in_map (fun m => inject_Z (Frequency m))); exact Hin
        | apply Qle_refl |].
  destruct (direct_labels_monotone
              (map Monetary (rfm_metrics t)) km
              (Monetary (metrics row)) (Monetary (metrics row)))
    as [m [m2 [Em [_ [Hm1 Hm2]]]]];
    [lia| apply in_map; exact Hin | apply in_map; exact Hin
        | apply Qle_refl |].
  exists r, f, m. rewrite H1, H2, H3, Er.
  cbv zeta in Ef, Em. rewrite Ef, Em.
  repeat split; try reflexivity; lia.
Qed.

Lemma score_digit (z : Z) :
  1 <= z <= 5 ->
  exists c, NilZero.string_of_int (Z.to_int z) = String c EmptyString.
Proof.
  intros H.
  assert (E : z = 1 \/ z = 2 \/ z = 3 \/ z = 4 \/ z = 5) by lia.
  destruct E as [->|[->|[->|[->| ->]]]]; eexists; reflexivity.
Qed.

Lemma score_digit_inj (a b : Z) :
  1 <= a <= 5 -> 1 <= b <= 5 ->
  NilZero.string_of_int (Z.to_int a) = NilZero.string_of_int (Z.to_int b) ->
  a = b.
Proof.
  intros Ha Hb.
  assert (Ea : a = 1 \/ a = 2 \/ a = 3 \/ a = 4 \/ a = 5) by lia.
  assert (Eb : b = 1 \/ b = 2 \/ b = 3 \/ b = 4 \/ b = 5) by lia.
  destruct Ea as [->|[->|[->|[->| ->]]]];
    destruct Eb as [->|[->|[->|[->| ->]]]];
    intros E; try reflexivity; discriminate E.
Qed.

(** X6: when the RFM tab returns, its table has exactly the rows of rfm,
    in the same order; every row has its three scores, each between 1 and
    5, an RFM_Score between 3 and 15 and an RFM_Segment of three
    characters. *)
Theorem every_customer_is_scored (t : DataFrame) (rows : list RFMRow) :
  rfm_analysis t = Ok rows ->
  map metrics rows = rfm_metrics t /\
  forall row, In row rows ->
    (exists r f m,
       R_Score row = Some r /\ F_Score row = Some f /\ M_Score row = Some m /\
       1 <= r <= 5 /\ 1 <= f <= 5 /\ 1 <= m <= 5) /\
    3 <= RFM_Score row <= 15 /\
    String.length (RFM_Segment row) = 3%nat.
Proof.
  intros H. destruct (rfm_analysis_rows t rows H) as [Hmap Hrows].
  split; [exact Hmap|]. intros row Hrow.
  destruct (Hrows row Hrow) as [_ [Hc [r [f [m [Hr [Hf [Hm [R1 [F1 M1]]]]]]]]]].
  split; [exists r, f, m; tauto|].
  rewrite Hc, Hr, Hf, Hm.
  cbn [composite RFM_Score RFM_Segment astype_str sum_axis1 fold_left].
  destruct (score_digit r R1) as [cr ->].
  destruct (score_digit f F1) as [cf ->].
  destruct (score_digit m M1) as [cm ->].
  split; [lia|reflexivity].
Qed.

Lemma every_customer_is_scored_witness :
  exists rows,
    rfm_analysis three_customers = Ok rows /\
    map metrics rows = rfm_metrics three_customers /\
    forall row, In row rows ->
      (exists r f m,
         R_Score row = Some r /\ F_Score row = Some f /\ M_Score row = Some m /\
         1 <= r <= 5 /\ 1 <= f <= 5 /\ 1 <= m <= 5) /\
      3 <= RFM_Score row <= 15 /\
      String.length (RFM_Segment row) = 3%nat.
Proof.
  eexists. split; [vm_compute; reflexivity|].
  apply (every_customer_is_scored three_customers). vm_compute. reflexivity.
Defined.

(** X7: in a table the RFM tab returned, two rows with the same
    RFM_Segment have the same three scores. *)
Theorem segment_determines_scores
    (t : DataFrame) (rows : list RFMRow) (a b : RFMRow) :
  rfm_analysis t = Ok rows -> In a rows -> In b rows ->
  RFM_Segment a = RFM_Segment b ->
  R_Score a = R_Score b /\ F_Score a = F_Score b /\ M_Score a = M_Score b.
Proof.
  intros H Ha Hb. destruct (rfm_analysis_rows t rows H) as [_ Hrows].
  destruct (Hrows a Ha) as [_ [Ca [r [f [m [Hr [Hf [Hm [R1 [F1 M1]]]]]]]]]].
  destruct (Hrows b Hb) as [_ [Cb [r' [f' [m' [Hr' [Hf' [Hm' [R2 [F2 M2]]]]]]]]]].
  rewrite Ca, Cb, Hr, Hf, Hm, Hr', Hf', Hm'.
  cbn [composite R_Score F_Score M_Score RFM_Segment astype_str].
  destruct (score_digit r R1) as [cr Er], (score_digit f F1) as [cf Ef],
           (score_digit m M1) as [cm Em], (score_digit r' R2) as [cr' Er'],
           (score_digit f' F2) as [cf' Ef'], (score_digit m' M2) as [cm' Em'].
  rewrite Er, Ef, Em, Er', Ef', Em'. simpl. intros E.
  injection E as E1 E2 E3.
  assert (r = r') by (apply score_digit_inj; congruence).
  assert (f = f') by (apply score_digit_inj; congruence).
  assert (m = m') by (apply score_digit_inj; congruence).
  subst. auto.
Qed.

(** ** Columns of equal values *)

Lemma np_sort_nth_In (x : list Q) (j : nat) :
  (j < length x)%nat -> In (nth j (np_sort x) 0%Q) x.
Proof.
  intros H. apply np_sort_In, nth_In. now rewrite np_sort_length.
Qed.

(** The index of the lower neighbour of a quantile lies in the column. *)
Lemma quantile_index_bound (n i k : nat) :
  (1 <= n)%nat -> (i <= k)%nat ->
  (Z.to_nat (Z.of_nat (n - 1) * Z.of_nat i / Z.of_nat k) <= n - 1)%nat.
Proof.
  intros Hn Hi. destruct k as [|k].
  - rewrite Z.div_0_r. simpl. lia.
  - apply Nat2Z.inj_le. rewrite Z2Nat.id.
    + apply Z.div_le_upper_bound; nia.
    + apply Z.div_pos; nia.
Qed.

(** A quantile is a value between its two neighbours in the sorted
    column: it is written with a weight [w] between 0 and 1. *)
Lemma quantile_convex (x : list Q) (i k : nat) :
  x <> [] -> (i <= k)%nat ->
  exists lo hi w,
    In lo x /\ In hi x /\ (0 <= w <= 1)%Q /\
    (quantile (np_sort x) i k == lo + w * (hi - lo))%Q.
Proof.
  intros Hx Hi. unfold quantile. rewrite np_sort_length.
  assert (Hn : (1 <= length x)%nat) by (destruct x; [easy|simpl; lia]).
  pose proof (quantile_index_bound (length x) i k Hn Hi) as Hj.
  set (j := Z.to_nat (Z.of_nat (length x - 1) * Z.of_nat i / Z.of_nat k)) in *.
  set (g := (Z.of_nat (length x - 1) * Z.of_nat i) mod Z.of_nat k).
  exists (nth j (np_sort x) 0%Q),
         (nth (Nat.min (j + 1) (length x - 1)) (np_sort x) 0%Q),
         (g # Pos.of_nat k).
  split; [apply np_sort_nth_In; lia|].
  split; [apply np_sort_nth_In; lia|].
  split; [|reflexivity].
  destruct k as [|k].
  - subst g. rewrite Z.mod_0_r. replace i with 0%nat by lia.
    rewrite Z.mul_0_r. split; unfold Qle; simpl; lia.
  - assert (Hg : 0 <= g < Z.of_nat (S k)) by (apply Z.mod_pos_bound; lia).
    assert (Hp : Z.pos (Pos.of_nat (S k)) = Z.of_nat (S k)).
    { rewrite <- positive_nat_Z, Nat2Pos.id by lia. reflexivity. }
    split; unfold Qle; cbn [Qnum Qden]; rewrite ?Hp; lia.
Qed.

Lemma quantile_edges_In (x : list Q) (k : nat) (e : Q) :
  In e (quantile_edges x k) ->
  exists i, (i <= k)%nat /\ e = quantile (np_sort x) i k.
Proof.
  unfold quantile_edges. intros H. apply in_map_iff in H.
  destruct H as [i [<- Hi]]. apply in_seq in Hi. exists i. split; [lia|auto].
Qed.

(** All quantile edges of a column of equal values are equal. *)
Lemma quantile_edges_constant (x : list Q) (k : nat) :
  (forall v w, In v x -> In w x -> (v == w)%Q) ->
  exists d, forall e, In e (quantile_edges x k) -> (e == d)%Q.
Proof.
  intros Hx. destruct x as [|v x].
  - exists 0%Q. intros e He. apply quantile_edges_In in He.
    destruct He as [i [_ ->]]. unfold quantile. cbn [np_sort fold_right].
    assert (N : forall j, nth j (@nil Q) 0%Q = 0%Q) by (intros [|j]; reflexivity).
    rewrite !N. ring.
  - exists v. intros e He. apply quantile_edges_In in He.
    destruct He as [i [Hi ->]].
    destruct (quantile_convex (v :: x) i k) as [lo [hi [w [Hlo [Hhi [_ ->]]]]]];
      [discriminate|exact Hi|].
    rewrite (Hx lo v Hlo (or_introl eq_refl)).
    rewrite (Hx hi v Hhi (or_introl eq_refl)). ring.
Qed.

Lemma pd_unique_incl (l : list Q) (e : Q) : In e (pd_unique l) -> In e l.
Proof.
  induction l as [|b l IH]; simpl; [easy|].
  intros [H|H]; [now left|]. apply filter_In in H. right. tauto.
Qed.

Lemma filter_none {B : Type} (p : B -> bool) (l : list B) :
  (forall b, In b l -> p b = false) -> filter p l = [].
Proof.
  induction l as [|b l IH]; simpl; [reflexivity|]. intros H.
  rewrite (H b (or_introl eq_refl)). apply IH. intros c Hc. apply H. now right.
Qed.

Lemma pd_unique_constant (l : list Q) (d : Q) :
  (forall e, In e l -> (e == d)%Q) -> (length (pd_unique l) <= 1)%nat.
Proof.
  destruct l as [|b l]; simpl; [lia|]. intros H.
  rewrite filter_none; [simpl; lia|].
  intros c Hc. apply pd_unique_incl in Hc.
  apply negb_false_iff, Qeq_bool_iff.
  rewrite (H b (or_introl eq_refl)), (H c (or_intror Hc)). reflexivity.
Qed.

Lemma constant_column_edges (x : list Q) (k : nat) :
  (forall v w, In v x -> In w x -> (v == w)%Q) ->
  (length (pd_unique (quantile_edges x k)) <= 1)%nat.
Proof.
  intros H. destruct (quantile_edges_constant x k H) as [d Hd].
  now apply (pd_unique_constant _ d).
Qed.

(** X8: when all customers of the cohort have the same Recency, and so
    when the cohort has one customer only, the RFM tab raises ValueError
    at line 127. *)
Theorem equal_recency_raises (t : DataFrame) :
  (forall a b, In a (rfm_metrics t) -> In b (rfm_metrics t) ->
               Recency a = Recency b) ->
  rfm_analysis t = Raise (ValueError "Bin edges must be unique").
Proof.
  intros H. unfold rfm_analysis. rewrite r_score_step_raises; [reflexivity|].
  assert (L : (length (pd_unique (quantile_edges
                                    (Recency_column (rfm_metrics t)) 5))
               <= 1)%nat); [|lia].
  apply constant_column_edges. unfold Recency_column. intros v w Hv Hw.
  apply in_map_iff in Hv, Hw.
  destruct Hv as [a [<- Ha]], Hw as [b [<- Hb]].
  now rewrite (H a b Ha Hb).
Qed.

Lemma equal_recency_raises_witness :
  rfm_analysis (filtered_data three_customers "Spain")
  = Raise (ValueError "Bin edges must be unique").
Proof.
  apply (equal_recency_raises (filtered_data three_customers "Spain")).
  vm_compute. intros a b [<-|[]] [<-|[]]. reflexivity.
Defined.

Lemma qcut_drop_constant (x : list Q) (k : nat) :
  (2 <= k)%nat ->
  (length (pd_unique (quantile_edges x k)) <= 1)%nat ->
  exists msg, qcut x k (range_labels k) dup_drop = Raise (ValueError msg).
Proof.
  intros Hk H. unfold qcut, bins_to_cuts.
  rewrite quantile_edges_length, range_labels_length.
  replace (Nat.ltb (length (pd_unique (quantile_edges x k))) (k + 1))
    with true by (symmetry; apply Nat.ltb_lt; lia).
  replace (negb (Nat.eqb (k + 1) 2)) with true
    by (symmetry; apply negb_true_iff, Nat.eqb_neq; lia).
  cbn [andb bind].
  destruct (negb (all_distinct (range_labels k))); [eauto|].
  replace (Nat.eqb k (length (pd_unique (quantile_edges x k)) - 1))
    with false by (symmetry; apply Nat.eqb_neq; lia).
  simpl. eauto.
Qed.

Lemma score_loop_constant (x : list Q) :
  (forall v w, In v x -> In w x -> (v == w)%Q) ->
  score_loop x (range_down 5 1) = Ok None.
Proof.
  intros H. rewrite range_5_to_2.
  destruct (qcut_drop_constant x 5) as [m5 E5];
    [lia|now apply constant_column_edges|].
  destruct (qcut_drop_constant x 4) as [m4 E4];
    [lia|now apply constant_column_edges|].
  destruct (qcut_drop_constant x 3) as [m3 E3];
    [lia|now apply constant_column_edges|].
  destruct (qcut_drop_constant x 2) as [m2 E2];
    [lia|now apply constant_column_edges|].
  cbn [score_loop]. rewrite E5, E4, E3, E2. reflexivity.
Qed.

(** X9: when recency is scored and all customers of the cohort have the
    same Frequency, binning fails at every bin count and the RFM tab
    raises KeyError for F_Score. *)
Theorem equal_frequency_raises (t : DataFrame) (R : list (option Z)) :
  r_score_step (rfm_metrics t) = Ok R ->
  (forall a b, In a (rfm_metrics t) -> In b (rfm_metrics t) ->
               Frequency a = Frequency b) ->
  rfm_analysis t = Raise (KeyError "F_Score").
Proof.
  intros HR H. apply (exhausted_loop_KeyError t R HR).
  apply score_loop_constant. unfold Frequency_column. intros v w Hv Hw.
  apply in_map_iff in Hv, Hw.
  destruct Hv as [a [<- Ha]], Hw as [b [<- Hb]].
  now rewrite (H a b Ha Hb).
Qed.

Lemma equal_frequency_raises_witness :
  rfm_analysis single_purchases = Raise (KeyError "F_Score").
Proof.
  apply (equal_frequency_raises single_purchases
           [Some 1; Some 2; Some 3; Some 4; Some 5]).
  - vm_compute. reflexivity.
  - vm_compute. intros a b Ha Hb.
    repeat (destruct Ha as [<-|Ha]; [|]); try destruct Ha;
      repeat (destruct Hb as [<-|Hb]; [|]); try destruct Hb; reflexivity.
Defined.

(** ** The extreme bins *)

Lemma filter_length_full {B : Type} (p : B -> bool) (l : list B) :
  (length l <= length (filter p l))%nat ->
  filter p l = l /\ forall b, In b l -> p b = true.
Proof.
  induction l as [|b l IH]; simpl; [intros _; split; [reflexivity|easy]|].
  pose proof (filter_length_le p l) as Hle.
  destruct (p b) eqn:E; simpl; intros H.
  - destruct IH as [I1 I2]; [lia|]. split; [now rewrite I1|].
    intros c [<-|Hc]; auto.
  - lia.
Qed.

Lemma pd_unique_length_le (l : list Q) : (length (pd_unique l) <= length l)%nat.
Proof.
  induction l as [|b l IH]; simpl; [lia|].
  pose proof (filter_length_le (fun c => negb (Qeq_bool b c)) (pd_unique l)).
  lia.
Qed.

(** When [unique] drops no edge, the edges are pairwise different. *)
Lemma pd_unique_full (l : list Q) :
  (length l <= length (pd_unique l))%nat ->
  pd_unique l = l /\
  forall i j, (i < j < length l)%nat -> ~ (nth i l 0 == nth j l 0)%Q.
Proof.
  induction l as [|b l IH]; simpl.
  - intros _. split; [reflexivity|]. intros i j H. lia.
  - intros H. pose proof (pd_unique_length_le l) as Hle.
    pose proof (filter_length_le (fun c => negb (Qeq_bool b c)) (pd_unique l))
      as Hfl.
    destruct IH as [I1 I2]; [lia|].
    destruct (filter_length_full (fun c => negb (Qeq_bool b c)) (pd_unique l))
      as [F1 F2]; [lia|].
    rewrite F1, I1. split; [reflexivity|].
    intros i j Hij. destruct j as [|j]; [lia|]. destruct i as [|i].
    + intros E. rewrite I1 in F2.
      assert (Hin : In (nth j l 0%Q) l) by (apply nth_In; lia).
      specialize (F2 _ Hin). apply negb_true_iff, Qeq_bool_neq in F2.
      contradiction.
    + apply I2. lia.
Qed.

Lemma searchsorted_left_exact (bins : list Q) (v : Q) (m : nat) :
  (m < length bins)%nat ->
  (forall i, (i < m)%nat -> (nth i bins 0 < v)%Q) ->
  (v <= nth m bins 0)%Q ->
  searchsorted_left bins v = m.
Proof.
  revert m. induction bins as [|b bins IH]; intros m Hm Hlt Hle;
    [simpl in Hm; lia|].
  simpl. destruct m as [|m].
  - simpl in Hle. apply Qle_bool_iff in Hle. now rewrite Hle.
  - assert (Hb : Qle_bool v b = false).
    { apply not_true_is_false. intros E. apply Qle_bool_iff in E.
      specialize (Hlt 0%nat ltac:(lia)). simpl in Hlt.
      apply (Qlt_irrefl v). now apply Qle_lt_trans with b. }
    rewrite Hb. f_equal. apply IH.
    + simpl in Hm. lia.
    + intros i Hi. apply (Hlt (S i)). lia.
    + exact Hle.
Qed.

(** No edge exceeds an upper bound of the values. *)
Lemma quantile_upper (x : list Q) (i k : nat) (hi : Q) :
  x <> [] -> (i <= k)%nat ->
  (forall u, In u x -> (u <= hi)%Q) ->
  (quantile (np_sort x) i k <= hi)%Q.
Proof.
  intros Hx Hi Hb.
  destruct (quantile_convex x i k Hx Hi) as [a [b [w [Ha [Hb' [Hw ->]]]]]].
  pose proof (Hb a Ha) as A2. pose proof (Hb b Hb') as B2.
  destruct Hw as [W1 W2].
  assert (P3 : (0 <= (1 - w) * (hi - a))%Q)
    by (apply Qmult_le_0_compat; lra).
  assert (P4 : (0 <= w * (hi - b))%Q) by (apply Qmult_le_0_compat; lra).
  lra.
Qed.

(** With pairwise different edges, the least value of the column falls
    in the first bin and the greatest in the last. *)
Lemma bin_id_extremes (x : list Q) (k : nat) (v : Q) :
  (1 <= k)%nat -> In v x ->
  (k + 1 <= length (pd_unique (quantile_edges x k)))%nat ->
  ((forall u, In u x -> (v <= u)%Q) -> bin_id (quantile_edges x k) v = 1%nat) /\
  ((forall u, In u x -> (u <= v)%Q) -> bin_id (quantile_edges x k) v = k).
Proof.
  intros Hk Hv Hd.
  assert (Hx : x <> []) by (intros ->; destruct Hv).
  pose proof (quantile_edges_bounds x k v ltac:(lia) Hv) as Hr.
  cbv zeta in Hr.
  set (bins := quantile_edges x k) in *.
  assert (L : length bins = (k + 1)%nat)
    by (subst bins; apply quantile_edges_length).
  assert (Hlen : (2 <= length bins)%nat) by lia.
  destruct (bin_id_in_range bins v Hlen Hr) as [_ Eid].
  destruct (pd_unique_full bins ltac:(lia)) as [_ Hdist].
  assert (Hnth : forall i, (i <= k)%nat ->
            nth i bins 0%Q = quantile (np_sort x) i k).
  { intros i Hi. subst bins. now apply quantile_edges_nth. }
  rewrite L in Hr. replace (k + 1 - 1)%nat with k in Hr by lia.
  assert (Hn : (1 <= length x)%nat) by (destruct x; [easy|simpl; lia]).
  split; intros Hext.
  - rewrite Eid.
    replace (Qeq_bool v (nth 0 bins 0%Q)) with true; [reflexivity|].
    symmetry. apply Qeq_bool_iff, Qle_antisym; [|tauto].
    rewrite Hnth by lia. rewrite quantile_first.
    apply Hext, np_sort_nth_In. lia.
  - assert (Ek : (nth k bins 0 == v)%Q).
    { apply Qle_antisym; [|tauto].
      rewrite Hnth by lia. rewrite quantile_last by lia.
      rewrite np_sort_length. apply Hext, np_sort_nth_In. lia. }
    assert (Hbelow : forall i, (i < k)%nat -> (nth i bins 0 < v)%Q).
    { intros i Hi.
      assert (Hle : (nth i bins 0 <= v)%Q).
      { rewrite Hnth by lia. apply quantile_upper; [exact Hx|lia|exact Hext]. }
      apply Qle_lteq in Hle. destruct Hle as [Hlt|Heq]; [exact Hlt|].
      exfalso. apply (Hdist i k); [lia|]. now rewrite Heq, Ek. }
    rewrite Eid.
    replace (Qeq_bool v (nth 0 bins 0%Q)) with false.
    + apply searchsorted_left_exact; [lia|exact Hbelow|].
      rewrite Ek. apply Qle_refl.
    + symmetry. apply not_true_is_false. intros E. apply Qeq_bool_iff in E.
      specialize (Hbelow 0%nat ltac:(lia)). rewrite E in Hbelow.
      now apply Qlt_irrefl in Hbelow.
Qed.

Lemma r_score_step_distinct (rfm : list Metrics) (R : list (option Z)) :
  r_score_step rfm = Ok R ->
  (6 <= length (pd_unique (quantile_edges (Recency_column rfm) 5)))%nat.
Proof.
  unfold r_score_step, qcut, bins_to_cuts.
  rewrite quantile_edges_length.
  destruct (Nat.ltb _ _) eqn:E; simpl; [discriminate|].
  intros _. apply Nat.ltb_ge in E. simpl in E. exact E.
Qed.

(** X10: in a cohort that line 127 scored, the customers with the least
    Recency have R_Score 5 and those with the greatest Recency have
    R_Score 1. *)
Theorem recency_score_extremes
    (rfm : list Metrics) (R : list (option Z)) (a : Metrics) (sa : option Z) :
  r_score_step rfm = Ok R ->
  In (a, sa) (combine rfm R) ->
  ((forall b, In b rfm -> Recency a <= Recency b) -> sa = Some 5) /\
  ((forall b, In b rfm -> Recency b <= Recency a) -> sa = Some 1).
Proof.
  intros HR Ha. pose proof (r_score_step_distinct rfm R HR) as Hd.
  apply r_score_step_Ok in HR. subst R.
  apply In_combine_scores in Ha. destruct Ha as [Ha ->].
  assert (Hin : In (inject_Z (Recency a)) (Recency_column rfm)).
  { unfold Recency_column.
    apply (in_map (fun m => inject_Z (Recency m))). exact Ha. }
  destruct (bin_id_extremes (Recency_column rfm) 5 (inject_Z (Recency a)))
    as [Hmin Hmax]; [lia|exact Hin|exact Hd|].
  split; intros Hext.
  - rewrite Hmin; [reflexivity|].
    intros u Hu. unfold Recency_column in Hu. apply in_map_iff in Hu.
    destruct Hu as [b [<- Hb]]. rewrite <- Zle_Qle. now apply Hext.
  - rewrite Hmax; [reflexivity|].
    intros u Hu. unfold Recency_column in Hu. apply in_map_iff in Hu.
    destruct Hu as [b [<- Hb]]. rewrite <- Zle_Qle. now apply Hext.
Qed.

Lemma recency_score_extremes_witness :
  ((forall b, In b (rfm_metrics three_customers) -> 1 <= Recency b) ->
   Some 5 = Some 5) /\
  ((forall b, In b (rfm_metrics three_customers) -> Recency b <= 1) ->
   Some 5 = Some 1).
Proof.
  apply (recency_score_extremes (rfm_metrics three_customers)
           [Some 5; Some 1; Some 3] (mkMetrics 1 1 1 (500 # 1)) (Some 5)).
  - vm_compute. reflexivity.
  - vm_compute. auto.
Defined.

(** X11: a column of scores returned by a retry loop uses the labels
    1 .. k of the bin count k, between 2 and 5, at which binning
    succeeded: every score is at most k, the least values of the column
    have score 1 and the greatest have score k. *)
Theorem loop_score_extremes (x : list Q) (col : list (option Z)) :
  score_loop x (range_down 5 1) = Ok (Some col) ->
  exists k, 2 <= k <= 5 /\
    forall v s, In (v, s) (combine x col) ->
      (exists a, s = Some a /\ 1 <= a <= k) /\
      ((forall u, In u x -> (v <= u)%Q) -> s = Some 1) /\
      ((forall u, In u x -> (u <= v)%Q) -> s = Some k).
Proof.
  intros H. apply score_loop_Some in H. destruct H as [k [Hk [-> Hd]]].
  exists (Z.of_nat k). split; [lia|]. intros v s Hvs.
  apply In_combine_map in Hvs. destruct Hvs as [Hv ->].
  destruct (direct_labels_monotone x k v v) as [a [b [Ea [_ [Hab Hbk]]]]];
    [lia|exact Hv|exact Hv|apply Qle_refl|].
  cbv zeta in Ea.
  destruct (bin_id_extremes x k v) as [Hmin Hmax]; [lia|exact Hv|exact Hd|].
  split; [|split].
  - exists a. split; [exact Ea|lia].
  - intros Hext. rewrite (Hmin Hext). apply take_range_label. lia.
  - intros Hext. rewrite (Hmax Hext). apply take_range_label. lia.
Qed.

Lemma loop_score_extremes_witness :
  exists k, 2 <= k <= 5 /\
    forall v s,
      In (v, s) (combine (Recency_column (rfm_metrics tied_recency))
                         [Some 1; Some 1; Some 2; Some 2]) ->
      (exists a, s = Some a /\ 1 <= a <= k) /\
      ((forall u, In u (Recency_column (rfm_metrics tied_recency)) ->
                  (v <= u)%Q) -> s = Some 1) /\
      ((forall u, In u (Recency_column (rfm_metrics tied_recency)) ->
                  (u <= v)%Q) -> s = Some k).
Proof.
  apply (loop_score_extremes (Recency_column (rfm_metrics tied_recency))).
  vm_compute. reflexivity.
Defined.

(** ** Group sizes *)

Section GroupTotals.

Context {K A : Type}.
Variables (ltb eqb : K -> K -> bool).
Variable key : A -> K.

Hypothesis eqb_eq : forall a b, eqb a b = true <-> a = b.
Hypothesis ltb_irrefl : forall a, ltb a a = false.
Hypothesis ltb_trans :
  forall a b c, ltb a b = true -> ltb b c = true -> ltb a c = true.
Hypothesis ltb_total :
  forall a b, ltb a b = false -> eqb a b = false -> ltb b a = true.

(** When every row has a key, the groups are a rearrangement of the
    whole table. *)
Lemma groupby_total_partition (t : list A) :
  Permutation
    (concat (map snd (groupby ltb eqb (fun r => Some (key r)) t))) t.
Proof.
  rewrite (groupby_partition ltb eqb (fun r => Some (key r))
             eqb_eq ltb_irrefl ltb_trans ltb_total t).
  induction t as [|r t IH]; simpl; [constructor|now constructor].
Qed.

Lemma group_sizes_total (t : list A) :
  series_sum_Z (map (fun g => Z.of_nat (length (snd g)))
                    (groupby ltb eqb (fun r => Some (key r)) t))
  = Z.of_nat (length t).
Proof.
  rewrite <- (Permutation_length (groupby_total_partition t)).
  induction (groupby ltb eqb (fun r => Some (key r)) t) as [|g G IH]; simpl.
  - reflexivity.
  - rewrite series_sum_Z_cons, IH, length_app. lia.
Qed.

Lemma groupby_total_keys (t : list A) (c : K) :
  In c (map fst (groupby ltb eqb (fun r => Some (key r)) t)) <->
  exists r, In r t /\ key r = c.
Proof.
  rewrite groupby_fst, (groupby_keys_In ltb eqb _ eqb_eq).
  split; intros [r [Hr Hk]]; exists r; split; congruence.
Qed.

End GroupTotals.

(** ** Sales Trends *)

Lemma fold_min_earliest (l : list Z) (d : Z) :
  forall x, In x (d :: l) -> fold_left Z.min l d <= x.
Proof.
  revert d. induction l as [|e l IH]; intros d x Hx; simpl.
  - destruct Hx as [<-|[]]. lia.
  - assert (H0 : fold_left Z.min l (Z.min d e) <= Z.min d e)
      by (apply IH; now left).
    destruct Hx as [<-|[<-|Hx]]; try lia. apply IH. now right.
Qed.

(** X12: with the slider at its default, a row is kept when its day is
    before the day of the latest invoice, or when it is stamped at
    midnight of that day exactly; every other row of the last day is left
    out of the daily sales. *)
Theorem default_range_rows (t : DataFrame) (start_date end_date : Z) :
  slider_default t = Some (start_date, end_date) ->
  forall r,
    In r (filtered_time_data t start_date end_date) <->
    In r t /\ (date (InvoiceDate r) < end_date
               \/ InvoiceDate r = Timestamp end_date).
Proof.
  unfold slider_default. destruct t as [|r0 t]; [discriminate|].
  cbn [map series_min series_max]. intros H. injection H as <- <-.
  intros r. unfold filtered_time_data. rewrite filter_In.
  rewrite andb_true_iff, !Z.leb_le. unfold Timestamp, date.
  pose proof ns_per_day_pos as Hp.
  split.
  - intros [Hin [_ Hend]]. split; [exact Hin|].
    set (e := fold_left Z.max (map InvoiceDate t) (InvoiceDate r0) / ns_per_day)
      in *.
    destruct (Z.eq_dec (InvoiceDate r) (e * ns_per_day)) as [E|E];
      [now right|left].
    apply Z.div_lt_upper_bound; [exact Hp|]. lia.
  - intros [Hin Hcase]. split; [exact Hin|]. split.
    + assert (Hmin : fold_left Z.min (map InvoiceDate t) (InvoiceDate r0)
                     <= InvoiceDate r).
      { apply fold_min_earliest.
        change (InvoiceDate r0 :: map InvoiceDate t)
          with (map InvoiceDate (r0 :: t)).
        now apply in_map. }
      pose proof (Z.mul_div_le
                    (fold_left Z.min (map InvoiceDate t) (InvoiceDate r0))
                    ns_per_day Hp).
      lia.
    + destruct Hcase as [Hlt| ->]; [|lia].
      pose proof (Z.mul_succ_div_gt (InvoiceDate r) ns_per_day Hp).
      set (e := fold_left Z.max (map InvoiceDate t) (InvoiceDate r0) / ns_per_day)
        in *.
      nia.
Qed.

Lemma default_range_rows_witness :
  slider_default intraday_sales = Some (1, 2) /\
  (In afternoon_sale (filtered_time_data intraday_sales 1 2) <->
   In afternoon_sale intraday_sales /\
   (date (InvoiceDate afternoon_sale) < 2
    \/ InvoiceDate afternoon_sale = Timestamp 2)).
Proof.
  split; [reflexivity|].
  apply (default_range_rows intraday_sales 1 2). reflexivity.
Defined.

(** On that table the sale of the afternoon of the last day is not among
    the rows kept by the default range. *)
Lemma afternoon_sale_left_out :
  In afternoon_sale intraday_sales /\
  ~ In afternoon_sale (filtered_time_data intraday_sales 1 2).
Proof.
  split; [simpl; auto|]. intros H. vm_compute in H.
  destruct H as [H|[H|[]]]; discriminate H.
Qed.

(** X13: the daily sales list each day that has a kept row exactly
    once, in ascending order, and every listed day lies between the start
    date and the end date of the slider. *)
Theorem daily_sales_days (t : DataFrame) (start_date end_date : Z) :
  let days :=
    map fst (daily_sales (filtered_time_data t start_date end_date)) in
  StronglySorted Z.lt days /\
  (forall day,
     In day days <->
     exists r, In r t /\
               Timestamp start_date <= InvoiceDate r <= Timestamp end_date /\
               date (InvoiceDate r) = day) /\
  (forall day, In day days -> start_date <= day <= end_date).
Proof.
  intros days. subst days.
  set (d := filtered_time_data t start_date end_date).
  assert (Hd : forall r, In r d <->
            In r t /\
            Timestamp start_date <= InvoiceDate r <= Timestamp end_date).
  { intros r. unfold d, filtered_time_data.
    rewrite filter_In, andb_true_iff, !Z.leb_le. tauto. }
  assert (Hkeys : forall day,
            In day (map fst (daily_sales d)) <->
            exists r, In r d /\ date (InvoiceDate r) = day).
  { intros day. unfold daily_sales. rewrite map_map. cbn [fst].
    apply (groupby_total_keys Z.ltb Z.eqb (fun r => date (InvoiceDate r))
             Z.eqb_eq). }
  split; [|split].
  - unfold daily_sales. rewrite map_map. cbn [fst].
    rewrite (groupby_fst Z.ltb Z.eqb).
    pose proof (groupby_keys_sorted Z.ltb Z.eqb
                  (fun r => Some (date (InvoiceDate r))) Z.eqb_eq
                  Z_ltb_trans Z_ltb_total d) as H.
    induction H as [|k keys Hs IH Hall]; constructor; [exact IH|].
    rewrite Forall_forall in *. intros y Hy. apply Z.ltb_lt. auto.
  - intros day. rewrite Hkeys. split.
    + intros [r [Hr Hday]]. apply Hd in Hr. exists r. tauto.
    + intros [r [Hr [Hb Hday]]]. exists r. split; [|exact Hday].
      apply Hd. tauto.
  - intros day Hday. apply Hkeys in Hday. destruct Hday as [r [Hr <-]].
    apply Hd in Hr. destruct Hr as [_ [Hlo Hhi]].
    unfold Timestamp in Hlo, Hhi. unfold date.
    pose proof ns_per_day_pos as Hp. split.
    + apply Z.div_le_lower_bound; [exact Hp|lia].
    + apply Z.div_le_upper_bound; [exact Hp|lia].
Qed.

(** ** Product Performance *)

Lemma loaded_quantity_positive
    (csv : list CsvRow) (sel : string) (r : Transaction) :
  In r (filtered_data (load_and_clean_data csv) sel) -> 1 <= Quantity r.
Proof.
  intros H. apply filtered_data_incl in H. unfold load_and_clean_data in H.
  apply filter_In in H. destruct H as [_ H]. apply Z.ltb_lt in H. lia.
Qed.

(** X14: the product table has one row per Description of the table, in
    ascending order of Description; on a table that comes from the
    loader, the Quantity of a product row is at least the number of table
    rows of that product, so it is never below 1. *)
Theorem product_performance_rows (csv : list CsvRow) (sel : string) :
  let t := filtered_data (load_and_clean_data csv) sel in
  StronglySorted (fun a b => String.ltb a b = true)
                 (map p_Description (product_performance t)) /\
  (forall d, In d (map p_Description (product_performance t)) <->
             exists r, In r t /\ Description r = d) /\
  (forall row, In row (product_performance t) ->
     1 <= Z.of_nat (length (filter (fun r => String.eqb (Description r)
                                                        (p_Description row)) t))
       <= p_Quantity row).
Proof.
  intros t. unfold product_performance. split; [|split].
  - rewrite map_map. cbn [p_Description].
    rewrite (groupby_fst String.ltb String.eqb).
    apply (groupby_keys_sorted String.ltb String.eqb _ String.eqb_eq
             string_ltb_trans string_ltb_total).
  - intros d. rewrite map_map. cbn [p_Description].
    apply (groupby_total_keys String.ltb String.eqb Description String.eqb_eq).
  - intros row Hrow. apply in_map_iff in Hrow.
    destruct Hrow as [[c rows] [<- Hg]]. cbn [fst snd p_Description p_Quantity].
    apply (groupby_In String.ltb String.eqb _ String.eqb_eq) in Hg.
    destruct Hg as [-> [Hne _]].
    change (filter (fun r => String.eqb (Description r) c) t)
      with (get_group String.eqb (fun r => Some (Description r)) t c).
    set (rows := get_group String.eqb (fun r => Some (Description r)) t c) in *.
    split.
    + destruct rows; [easy|simpl; lia].
    + rewrite <- (length_map Quantity rows). apply series_sum_Z_lower.
      intros q Hq. apply in_map_iff in Hq. destruct Hq as [r [<- Hr]].
      apply (loaded_quantity_positive csv sel). unfold rows, get_group in Hr.
      apply filter_In in Hr. tauto.
Qed.

(** ** Country Insights *)

(** X15: a country that has a row in the table of all countries is one of
    the choices of the filter, and the customer count of its row is the
    number of unique customers written when that country is selected. *)
Theorem country_row_matches_selection (data : DataFrame) (row : CountryRow) :
  In row (country_sales (filtered_data data "All")) ->
  c_Country row <> "All" ->
  In (c_Country row) (selectbox_options data) /\
  c_CustomerID row = unique_customers (filtered_data data (c_Country row)).
Proof.
  intros Hrow Hne. change (filtered_data data "All") with data in Hrow.
  unfold country_sales in Hrow. apply in_map_iff in Hrow.
  destruct Hrow as [[c rows] [<- Hg]]. cbn [fst snd c_Country c_CustomerID] in *.
  apply (groupby_In String.ltb String.eqb _ String.eqb_eq) in Hg.
  destruct Hg as [-> [_ [r [Hr Hc]]]]. injection Hc as Hc.
  split.
  - right. apply unique_strings_spec. split; [|easy].
    rewrite <- Hc. now apply in_map.
  - unfold unique_customers, filtered_data.
    apply String.eqb_neq in Hne. rewrite Hne. reflexivity.
Qed.

Lemma country_row_matches_selection_witness :
  let row := mkCountryRow "Spain" (series_sum [100 # 1; 50 # 1; 50 # 1]%Q) 1 in
  In (c_Country row) (selectbox_options three_customers) /\
  c_CustomerID row = unique_customers (filtered_data three_customers (c_Country row)).
Proof.
  apply (country_row_matches_selection three_customers
           (mkCountryRow "Spain" (series_sum [100 # 1; 50 # 1; 50 # 1]%Q) 1)).
  - vm_compute. auto.
  - discriminate.
Defined.

(** ** Sales by segment *)

(** X16: the segment summary has one row per RFM_Segment of the table,
    in ascending order; every segment listed has at least one customer
    and the customer counts add up to the number of customers. *)
Theorem sales_by_segment_counts (rfm : list RFMRow) :
  StronglySorted (fun a b => String.ltb a b = true)
                 (map s_RFM_Segment (sales_by_segment rfm)) /\
  (forall s, In s (map s_RFM_Segment (sales_by_segment rfm)) <->
             exists r, In r rfm /\ RFM_Segment r = s) /\
  (forall row, In row (sales_by_segment rfm) -> 1 <= s_Customer_Count row) /\
  series_sum_Z (map s_Customer_Count (sales_by_segment rfm))
    = Z.of_nat (length rfm).
Proof.
  unfold sales_by_segment.
  split; [|split; [|split]].
  - rewrite map_map. cbn [s_RFM_Segment].
    rewrite (groupby_fst String.ltb String.eqb).
    apply (groupby_keys_sorted String.ltb String.eqb _ String.eqb_eq
             string_ltb_trans string_ltb_total).
  - intros s. rewrite map_map. cbn [s_RFM_Segment].
    apply (groupby_total_keys String.ltb String.eqb RFM_Segment String.eqb_eq).
  - intros row Hrow. apply in_map_iff in Hrow.
    destruct Hrow as [[s rows] [<- Hg]]. cbn [fst snd s_Customer_Count].
    apply (groupby_In String.ltb String.eqb _ String.eqb_eq) in Hg.
    destruct Hg as [_ [Hne _]]. destruct rows; [easy|simpl; lia].
  - rewrite map_map. cbn [s_Customer_Count].
    apply (group_sizes_total String.ltb String.eqb RFM_Segment
             String.eqb_eq string_ltb_irrefl string_ltb_trans
             string_ltb_total).
Qed.

(** ** The country filter *)

(** X17: the filter offers "All" and then every country of the table
    once; on a non-empty table each offered choice gives a non-empty
    table, whose rows, for a choice other than "All", are all of the
    chosen country. *)
Theorem selectbox_options_cover (data : DataFrame) :
  exists countries,
    selectbox_options data = "All" :: countries /\
    NoDup countries /\
    (forall c, In c countries <-> exists r, In r data /\ Country r = c) /\
    (forall sel, data <> [] -> In sel (selectbox_options data) ->
       filtered_data data sel <> [] /\
       (sel <> "All" ->
        forall r, In r (filtered_data data sel) -> Country r = sel)).
Proof.
  exists (unique_strings [] (map Country data)).
  destruct (unique_strings_spec [] (map Country data)) as [Hnd Hin].
  split; [reflexivity|]. split; [exact Hnd|]. split.
  - intros c. rewrite Hin, in_map_iff. split.
    + intros [[r [Hc Hr]] _]. eauto.
    + intros [r [Hr Hc]]. split; [eauto|easy].
  - intros sel Hne Hsel. split.
    + now apply filtered_data_offered_nonempty.
    + intros Hall r Hr. unfold filtered_data in Hr.
      apply String.eqb_neq in Hall. rewrite Hall in Hr.
      apply filter_In in Hr. destruct Hr as [_ Hr].
      now apply String.eqb_eq in Hr.
Qed.

(** ** Outcomes of the RFM tab *)

Lemma r_score_step_outcomes (rfm : list Metrics) :
  (exists R, r_score_step rfm = Ok R) \/
  r_score_step rfm = Raise (ValueError "Bin edges must be unique").
Proof.
  unfold r_score_step, qcut, bins_to_cuts.
  rewrite quantile_edges_length.
  destruct (Nat.ltb _ _); simpl; eauto.
Qed.

(** X18: the RFM tab has four outcomes and no other.  It returns its
    table exactly when line 127 and both retry loops give a column; it
    raises ValueError exactly when line 127 raises; it raises KeyError for
    F_Score exactly when line 127 returns and the frequency loop ends
    without a column; it raises KeyError for M_Score exactly when line 127
    returns, the frequency loop gives a column and the monetary loop ends
    without one. *)
Theorem rfm_analysis_outcomes (t : DataFrame) :
  let R := r_score_step (rfm_metrics t) in
  let F := score_loop (Frequency_column (rfm_metrics t)) (range_down 5 1) in
  let M := score_loop (Monetary_column (rfm_metrics t)) (range_down 5 1) in
  ((exists rows, rfm_analysis t = Ok rows) <->
   exists r f m, R = Ok r /\ F = Ok (Some f) /\ M = Ok (Some m)) /\
  (rfm_analysis t = Raise (ValueError "Bin edges must be unique") <->
   R = Raise (ValueError "Bin edges must be unique")) /\
  (rfm_analysis t = Raise (KeyError "F_Score") <->
   (exists r, R = Ok r) /\ F = Ok None) /\
  (rfm_analysis t = Raise (KeyError "M_Score") <->
   exists r f, R = Ok r /\ F = Ok (Some f) /\ M = Ok None) /\
  ((exists rows, rfm_analysis t = Ok rows) \/
   rfm_analysis t = Raise (ValueError "Bin edges must be unique") \/
   rfm_analysis t = Raise (KeyError "F_Score") \/
   rfm_analysis t = Raise (KeyError "M_Score")).
Proof.
  intros R F M. subst R F M. unfold rfm_analysis.
  destruct (r_score_step_outcomes (rfm_metrics t)) as [[r HR]|HR];
    destruct (score_loop_returns (Frequency_column (rfm_metrics t))
                                 (range_down 5 1)) as [[f|] HF];
    destruct (score_loop_returns (Monetary_column (rfm_metrics t))
                                 (range_down 5 1)) as [[m|] HM];
    rewrite HR, HF, HM; cbn [bind getitem];
    repeat split; intros;
    repeat match goal with
           | H : exists _, _ |- _ => destruct H
           | H : _ /\ _ |- _ => destruct H
           end;
    try discriminate; eauto 8.
Qed.

Lemma segment_determines_scores_witness :
  let a := composite (mkMetrics 1 1 1 (10 # 1)) (Some 5) (Some 1) (Some 1) in
  let b := composite (mkMetrics 2 2 1 (20 # 1)) (Some 5) (Some 1) (Some 1) in
  a <> b /\ RFM_Segment a = RFM_Segment b /\
  R_Score a = R_Score b /\ F_Score a = F_Score b /\ M_Score a = M_Score b.
Proof.
  split; [discriminate|]. split; [reflexivity|].
  apply (segment_determines_scores seven_customers
           (match rfm_analysis seven_customers with
            | Ok rows => rows
            | Raise _ => []
            end)).
  - vm_compute. reflexivity.
  - vm_compute. auto.
  - vm_compute. auto.
  - reflexivity.
Defined.
